(** * tern: common functions of the package-metadata pipeline

    A shallow embedding of [common.py]: the layer cache bridge
    ([load_from_cache]), the base package loader ([add_base_packages]),
    the package metadata filler ([fill_package_metadata],
    [get_package_dependencies]), the installed-package extraction and the
    two command filters.

    Python objects that the functions mutate in place (the image, its
    layers, a package, the caller's command list) are passed in and
    returned.  Calls that leave the module towards a collaborator with
    an effect of its own (cache reads and writes, the logger, the
    [Package] constructor) are recorded as a trace of events, in program
    order.  Subscripts on Python lists return [option]; a [None] stands
    for an [IndexError]. *)

From stdpp Require Import base option list strings gmap.

(** ** Python truthiness *)

Module Py.

(** [bool(s)] for a [str]. *)
Definition str_truthy (s : string) : bool :=
  match s with
  | EmptyString => false
  | String _ _ => true
  end.

(** [bool(l)] for a [list]. *)
Definition list_truthy {A} (l : list A) : bool :=
  match l with
  | [] => false
  | _ :: _ => true
  end.

(** [bool(o)] for a value that is either [None] or a list. *)
Definition opt_list_truthy {A} (o : option (list A)) : bool :=
  match o with
  | None => false
  | Some l => list_truthy l
  end.

(** [bool(o)] for a value that is either [None] or a [str]. *)
Definition opt_str_truthy (o : option string) : bool :=
  match o with
  | None => false
  | Some s => str_truthy s
  end.

(** [bool(o)] for a value that is [None] (or an empty mapping) or a
    non-empty mapping, the latter carried by [Some]. *)
Definition opt_truthy {A} (o : option A) : bool :=
  match o with
  | None => false
  | Some _ => true
  end.

(** The one-character string of a line feed. *)
Definition newline : string := String (Ascii.ascii_of_nat 10) "".

End Py.

(** ** Data model *)

(** Modelled from the spec: class [Notice] (classes/notice.py is not
    among the sources).  A notice has an origin, a message and a level;
    the level is one of the strings info, warning, error, hint. *)
Record Notice := mkNotice {
  origin : string;
  message : string;
  level : string
}.

(** Modelled from the spec: class [Package] (classes/package.py is not
    among the sources).  A package is created from its name alone, every
    other attribute unset; [None] is the unset state of an optional
    attribute. *)
Record Package := mkPackage {
  pkg_name : string;
  pkg_version : option string;
  pkg_license : option string;
  pkg_src_url : option string;
  pkg_deps : list string;
  pkg_notices : list Notice
}.

(** [Package(name)] *)
Definition new_package (name : string) : Package :=
  mkPackage name None None None [] [].

Definition set_version (p : Package) (v : string) : Package :=
  mkPackage (pkg_name p) (Some v) (pkg_license p) (pkg_src_url p)
            (pkg_deps p) (pkg_notices p).

Definition set_license (p : Package) (v : string) : Package :=
  mkPackage (pkg_name p) (pkg_version p) (Some v) (pkg_src_url p)
            (pkg_deps p) (pkg_notices p).

Definition set_src_url (p : Package) (v : string) : Package :=
  mkPackage (pkg_name p) (pkg_version p) (pkg_license p) (Some v)
            (pkg_deps p) (pkg_notices p).

(** [pkg_obj.add_notice(notice)]: notices are append-only. *)
Definition pkg_add_notice (p : Package) (n : Notice) : Package :=
  mkPackage (pkg_name p) (pkg_version p) (pkg_license p) (pkg_src_url p)
            (pkg_deps p) (pkg_notices p ++ [n]).

(** Modelled from the spec: the attribute mapping the cache keeps per
    package, one mapping per package with keys matching the attributes
    of [Package] (utils/cache.py is not among the sources). *)
Record PkgDict := mkPkgDict {
  d_name : string;
  d_version : option string;
  d_license : option string;
  d_src_url : option string;
  d_deps : list string
}.

(** Modelled from the spec: [Package.fill], which rebuilds a package
    from a cached attribute mapping. *)
Definition pkg_fill (p : Package) (d : PkgDict) : Package :=
  mkPackage (pkg_name p) (d_version d) (d_license d) (d_src_url d)
            (d_deps d) (pkg_notices p).

(** Modelled from the spec: class [Layer] (classes/layer.py is not among
    the sources): an identifier, the packages and the notices. *)
Record Layer := mkLayer {
  layer_id : string;
  packages : list Package;
  layer_notices : list Notice
}.

(** [layer.add_package(pkg)] *)
Definition layer_add_package (l : Layer) (p : Package) : Layer :=
  mkLayer (layer_id l) (packages l ++ [p]) (layer_notices l).

(** [layer.add_notice(notice)] *)
Definition layer_add_notice (l : Layer) (n : Notice) : Layer :=
  mkLayer (layer_id l) (packages l) (layer_notices l ++ [n]).

(** Modelled from the spec: class [Image] (classes/image.py is not among
    the sources): name, tag, the layers in build order, the notices, and
    the string [get_image_option()] answers. *)
Record Image := mkImage {
  image_name : string;
  image_tag : string;
  image_option : string;
  layers : list Layer;
  image_notices : list Notice
}.

(** [image.add_notice(notice)] *)
Definition image_add_notice (i : Image) (n : Notice) : Image :=
  mkImage (image_name i) (image_tag i) (image_option i) (layers i)
          (image_notices i ++ [n]).

(** The image with its layer objects in a new state. *)
Definition with_layers (i : Image) (ls : list Layer) : Image :=
  mkImage (image_name i) (image_tag i) (image_option i) ls
          (image_notices i).

(** Modelled from the spec: class [Command] (classes/command.py is not
    among the sources): the raw shell command, its words, the
    recognition flag answered by [is_set()] and the classification
    answered by [is_install()] and [is_ignore()]. *)
Record Command := mkCommand {
  shell_command : string;
  words : list string;
  is_set : bool;
  is_install : bool;
  is_ignore : bool
}.

(** Calls to collaborators that have an effect outside the arguments. *)
Inductive Event :=
| NewPackage (name : string)      (* Package(name) *)
| CacheGet (id : string)          (* cache.get_packages(id) *)
| CacheAdd (layer : Layer)        (* cache.add_layer(layer) *)
| LogError (msg : string).        (* logger.error(msg) *)

Definition is_new_package (e : Event) : bool :=
  match e with NewPackage _ => true | _ => false end.

Definition is_cache_get (e : Event) : bool :=
  match e with CacheGet _ => true | _ => false end.

Definition is_cache_add (e : Event) : bool :=
  match e with CacheAdd _ => true | _ => false end.

(** ** The command filters *)

Module Filter.

(** The loop of [remove_ignored_commands]; the third component is the
    caller's list when the loop ends. *)
Fixpoint remove_ignored_loop (command_list : list Command)
         (ignore_commands : string) (filtered_list : list Command)
  : string * list Command * list Command :=
  match command_list with
  | [] => (ignore_commands, filtered_list, command_list)
  | command :: command_list =>
      if is_set command && is_ignore command
      then remove_ignored_loop command_list
             (ignore_commands +:+ shell_command command +:+ Py.newline) filtered_list
      else remove_ignored_loop command_list
             ignore_commands (filtered_list ++ [command])
  end.

Definition remove_ignored_commands (command_list : list Command)
  : string * list Command * list Command :=
  remove_ignored_loop command_list "" [].

(** The loop of [remove_unrecognized_commands]. *)
Fixpoint remove_unrecognized_loop (command_list : list Command)
         (unrec_commands : string) (filtered_list : list Command)
  : string * list Command * list Command :=
  match command_list with
  | [] => (unrec_commands, filtered_list, command_list)
  | command :: command_list =>
      if negb (is_set command)
      then remove_unrecognized_loop command_list
             (unrec_commands +:+ shell_command command +:+ Py.newline) filtered_list
      else remove_unrecognized_loop command_list
             unrec_commands (filtered_list ++ [command])
  end.

Definition remove_unrecognized_commands (command_list : list Command)
  : string * list Command * list Command :=
  remove_unrecognized_loop command_list "" [].

(** The two filters one after the other: ignored text, unrecognized
    text and the list that remains. *)
Definition pipeline (command_list : list Command)
  : string * string * list Command :=
  let '(ignore_commands, filtered, _) :=
    remove_ignored_commands command_list in
  let '(unrec_commands, filtered, _) :=
    remove_unrecognized_commands filtered in
  (ignore_commands, unrec_commands, filtered).

(** The two filters in the other order. *)
Definition pipeline_unrec_first (command_list : list Command)
  : string * string * list Command :=
  let '(unrec_commands, filtered, _) :=
    remove_unrecognized_commands command_list in
  let '(ignore_commands, filtered, _) :=
    remove_ignored_commands filtered in
  (ignore_commands, unrec_commands, filtered).

(** The text a filter emits for a sequence of commands. *)
Fixpoint command_text (cs : list Command) : string :=
  match cs with
  | [] => ""
  | c :: cs => shell_command c +:+ Py.newline +:+ command_text cs
  end.

Definition ignored (c : Command) : bool := is_set c && is_ignore c.
Definition recognized (c : Command) : bool := is_set c.

End Filter.

(** ** The collaborators

    The command library, the attribute invoker, the container check, the
    cache and the message catalogue live in modules that are not part of
    [common.py].  The functions below receive them as one record.  A
    listing is whatever the command library hands out; the module only
    passes it on and tests it for truth. *)

Record Externals (Listing : Type) := mkExternals {
  (** [cmdlib.get_base_listing(image_name, image_tag)]; [None] is a
      result that tests false. *)
  get_base_listing : string → string → option Listing;
  (** [cmdlib.get_image_shell(listing)]: shell and message. *)
  get_image_shell : Listing → option string * string;
  (** [cmdlib.check_library_key(listing, key)]: sub-listing (or a
      result that tests false) and message. *)
  check_library_key : Listing → string → option Listing * string;
  (** [cmdlib.get_pkg_attr_list(shell, listing, package_name=...)]:
      values and error message; the package name is [None] when the
      caller leaves the keyword out. *)
  get_pkg_attr_list : string → Listing → option string → list string * string;
  (** [check_container()] *)
  check_container : bool;
  (** [cache.get_packages(layer_id)] *)
  cache_get_packages : string → option (list PkgDict);
  (** [const.shell] *)
  const_shell : string;
  (** [errors.no_shell_listing.format(image_name, image_tag, default_shell)] *)
  no_shell_listing : string → string → string → string;
  (** [errors.no_listing_for_base_key.format(listing_key)] *)
  no_listing_for_base_key : string → string;
  (** [errors.no_image_tag_listing.format(image_name, image_tag)] *)
  no_image_tag_listing : string → string → string;
  (** [errors.no_running_docker_container] *)
  no_running_docker_container : string;
  (** [info.loading_from_cache.format(layer_id)] *)
  loading_from_cache : string → string
}.

Arguments get_base_listing {Listing} _ _ _.
Arguments get_image_shell {Listing} _ _.
Arguments check_library_key {Listing} _ _ _.
Arguments get_pkg_attr_list {Listing} _ _ _ _.
Arguments check_container {Listing} _.
Arguments cache_get_packages {Listing} _ _.
Arguments const_shell {Listing} _.
Arguments no_shell_listing {Listing} _ _ _ _.
Arguments no_listing_for_base_key {Listing} _ _.
Arguments no_image_tag_listing {Listing} _ _ _.
Arguments no_running_docker_container {Listing} _.
Arguments loading_from_cache {Listing} _ _.

(** The [info] argument of [add_base_packages]: the mapping with the
    four listings it subscripts. *)
Record Info (Listing : Type) := mkInfo {
  info_names : Listing;
  info_versions : Listing;
  info_licenses : Listing;
  info_src_urls : Listing
}.

Arguments info_names {Listing} _.
Arguments info_versions {Listing} _.
Arguments info_licenses {Listing} _.
Arguments info_src_urls {Listing} _.

(** ** The layer cache bridge *)

Module Cache.
Section Cache.
Context {Listing : Type} (E : Externals Listing).

(** The inner loop of [load_from_cache]: one package per cached
    mapping, added to the layer. *)
Fixpoint hydrate (layer : Layer) (raw_pkg_list : list PkgDict)
  : Layer * list Event :=
  match raw_pkg_list with
  | [] => (layer, [])
  | pkg_dict :: raw_pkg_list =>
      let pkg := new_package (d_name pkg_dict) in
      let pkg := pkg_fill pkg pkg_dict in
      let layer := layer_add_package layer pkg in
      let '(layer, trace) := hydrate layer raw_pkg_list in
      (layer, NewPackage (d_name pkg_dict) :: trace)
  end.

(** The body of the outer loop of [load_from_cache] for one layer. *)
Definition load_layer (image : Image) (layer : Layer) (is_full : bool)
  : Layer * bool * list Event :=
  if negb (Py.list_truthy (packages layer)) then
    let raw_pkg_list := cache_get_packages E (layer_id layer) in
    if negb (Py.opt_list_truthy raw_pkg_list) then
      (layer, false, [CacheGet (layer_id layer)])
    else
      let from_cache_notice :=
        mkNotice (image_option image +:+ layer_id layer)
                 (loading_from_cache E (layer_id layer)) "info" in
      let layer := layer_add_notice layer from_cache_notice in
      let '(layer, trace) := hydrate layer (default [] raw_pkg_list) in
      (layer, is_full, CacheGet (layer_id layer) :: trace)
  else (layer, is_full, []).

Fixpoint load_layers (image : Image) (ls : list Layer) (is_full : bool)
  : list Layer * bool * list Event :=
  match ls with
  | [] => ([], is_full, [])
  | layer :: ls =>
      let '(layer, is_full, trace) := load_layer image layer is_full in
      let '(ls, is_full, trace') := load_layers image ls is_full in
      (layer :: ls, is_full, trace ++ trace')
  end.

(** [load_from_cache(image)]: the image, [is_full], and the calls made. *)
Definition load_from_cache (image : Image) : Image * bool * list Event :=
  let '(ls, is_full, trace) := load_layers image (layers image) true in
  (with_layers image ls, is_full, trace).

(** The package [load_from_cache] builds from one cached mapping. *)
Definition cached_package (pkg_dict : PkgDict) : Package :=
  pkg_fill (new_package (d_name pkg_dict)) pkg_dict.

(** The layer holds at least one package. *)
Definition has_packages (layer : Layer) : bool :=
  Py.list_truthy (packages layer).

(** Where the packages of a layer after the call come from: they are
    the ones it held before, or the layer held none and they are the
    cached ones under its id. *)
Definition sourced (before after : Layer) : Prop :=
  layer_id after = layer_id before
  ∧ (packages after = packages before
     ∨ (packages before = []
        ∧ ∃ raw_pkg_list,
            cache_get_packages E (layer_id before) = Some raw_pkg_list
            ∧ packages after = cached_package <$> raw_pkg_list)).

End Cache.

(** The layer ids the cache was asked for, in call order. *)
Definition cache_queries (trace : list Event) : list string :=
  omap (λ e, match e with CacheGet id => Some id | _ => None end) trace.

End Cache.

(** ** The package metadata filler *)

Module Metadata.
Section Metadata.
Context {Listing : Type} (E : Externals Listing).

Definition snippets_origin : string := "command_lib/snippets.yml".

(** [fill_package_metadata(pkg_obj, pkg_listing, shell)]: the package
    object after the call.  A non-empty list is matched as its element
    at index 0 and a rest. *)
Definition fill_package_metadata (pkg_obj : Package) (pkg_listing : Listing)
           (shell : string) : Package :=
  let origin := snippets_origin in
  (* version *)
  let '(version_listing, listing_msg) :=
    check_library_key E pkg_listing "version" in
  let pkg_obj :=
    match version_listing with
    | Some version_listing =>
        let '(version_list, invoke_msg) :=
          get_pkg_attr_list E shell version_listing (Some (pkg_name pkg_obj)) in
        match version_list with
        | v :: _ => set_version pkg_obj v
        | [] => pkg_add_notice pkg_obj (mkNotice origin invoke_msg "error")
        end
    | None => pkg_add_notice pkg_obj (mkNotice origin listing_msg "warning")
    end in
  (* license *)
  let '(license_listing, listing_msg) :=
    check_library_key E pkg_listing "license" in
  let pkg_obj :=
    match license_listing with
    | Some license_listing =>
        let '(license_list, invoke_msg) :=
          get_pkg_attr_list E shell license_listing (Some (pkg_name pkg_obj)) in
        match license_list with
        | v :: _ => set_license pkg_obj v
        | [] => pkg_add_notice pkg_obj (mkNotice origin invoke_msg "error")
        end
    | None => pkg_add_notice pkg_obj (mkNotice origin listing_msg "warning")
    end in
  (* src_urls *)
  let '(url_listing, listing_msg) :=
    check_library_key E pkg_listing "license" in
  match url_listing with
  | Some url_listing =>
      let '(url_list, invoke_msg) :=
        get_pkg_attr_list E shell url_listing (Some (pkg_name pkg_obj)) in
      match url_list with
      | v :: _ => set_src_url pkg_obj v
      | [] => pkg_add_notice pkg_obj (mkNotice origin invoke_msg "error")
      end
  | None => pkg_add_notice pkg_obj (mkNotice origin listing_msg "warning")
  end.

(** [get_package_dependencies(package_listing, package_name, shell)].
    [set(deps_list)] is a finite set of strings and [list(...)] of it
    its elements in the order the set yields them. *)
Definition get_package_dependencies (package_listing : Listing)
           (package_name : string) (shell : string) : list string * string :=
  let '(deps_listing, deps_msg) :=
    check_library_key E package_listing "deps" in
  match deps_listing with
  | Some deps_listing =>
      let '(deps_list, invoke_msg) :=
        get_pkg_attr_list E shell deps_listing (Some package_name) in
      if Py.list_truthy deps_list
      then (elements (list_to_set deps_list : gset string), "")
      else ([], invoke_msg)
  | None => ([], deps_msg)
  end.

End Metadata.

(** [get_installed_packages(command)]: the packages and the constructor
    calls. *)
Definition get_installed_packages (command : Command)
  : list Package * list Event :=
  if is_set command && is_install command
  then (new_package <$> words command, NewPackage <$> words command)
  else ([], []).

End Metadata.

(** ** The base package loader *)

Module Base.

(** A [for] loop whose body may raise. *)
Fixpoint for_each {S A : Type} (body : S → A → option S) (xs : list A) (s : S)
  : option S :=
  match xs with
  | [] => Some s
  | x :: xs => s ← body s x; for_each body xs s
  end.

Section Base.
Context {Listing : Type} (E : Externals Listing).

Definition base_origin : string := "command_lib/base.yml".

(** The body of the loop over [range(0, len(names))]: the state is the
    image's layers and the calls made so far. *)
Definition package_step (names versions licenses src_urls : list string)
           (st : list Layer * list Event) (index : nat)
  : option (list Layer * list Event) :=
  let '(ls, trace) := st in
  name ← names !! index;
  let pkg := new_package name in
  let trace := trace ++ [NewPackage name] in
  pkg ← (if length versions =? length names
         then v ← versions !! index; Some (set_version pkg v)
         else Some pkg);
  pkg ← (if length licenses =? length names
         then v ← licenses !! index; Some (set_license pkg v)
         else Some pkg);
  if length src_urls =? length names
  then v ← src_urls !! index;
       let pkg := set_src_url pkg v in
       Some ((λ layer, layer_add_package layer pkg) <$> ls, trace)
  else Some (ls, trace).

(** [add_base_packages(image, info)]: the image after the call and the
    calls made, or [None] when a subscript raises. *)
Definition add_base_packages (image : Image) (info : Info Listing)
  : option (Image * list Event) :=
  let listing := get_base_listing E (image_name image) (image_tag image) in
  let origin := base_origin in
  match listing with
  | Some listing =>
      let '(shell, msg) := get_image_shell E listing in
      let '(image, shell) :=
        if negb (Py.opt_str_truthy shell) then
          let no_shell_message :=
            no_shell_listing E (image_name image) (image_tag image)
                             (const_shell E) in
          let no_shell_notice := mkNotice origin no_shell_message "warning" in
          let image := image_add_notice image no_shell_notice in
          let add_shell_message := no_listing_for_base_key E "shell" in
          let add_shell_notice := mkNotice origin add_shell_message "hint" in
          let image := image_add_notice image add_shell_notice in
          (image, const_shell E)
        else (image, default "" shell) in
      if check_container E then
        let '(names, n_msg) := get_pkg_attr_list E shell (info_names info) None in
        let '(versions, v_msg) :=
          get_pkg_attr_list E shell (info_versions info) None in
        let '(licenses, l_msg) :=
          get_pkg_attr_list E shell (info_licenses info) None in
        let '(src_urls, u_msg) :=
          get_pkg_attr_list E shell (info_src_urls info) None in
        let invoke_msg := ((n_msg +:+ v_msg) +:+ l_msg) +:+ u_msg in
        let image :=
          if Py.str_truthy invoke_msg
          then image_add_notice image (mkNotice origin invoke_msg "error")
          else image in
        '(ls, trace) ←
          (if Py.list_truthy names && (1 <? length names)
           then for_each (package_step names versions licenses src_urls)
                         (seq 0 (length names)) (layers image, [])
           else Some (layers image, []));
        let image := with_layers image ls in
        Some (image, trace ++ (CacheAdd <$> layers image))
      else
        Some (image, [LogError (no_running_docker_container E)])
  | None =>
      let no_listing_notice :=
        mkNotice origin
                 (no_image_tag_listing E (image_name image) (image_tag image))
                 "error" in
      Some (image_add_notice image no_listing_notice, [])
  end.

(** The shell the invocations run in: the listing's, or [const.shell]
    when the listing names none. *)
Definition effective_shell (listing : Listing) : string :=
  let shell := (get_image_shell E listing).1 in
  if negb (Py.opt_str_truthy shell) then const_shell E else default "" shell.

(** The two notices about a listing without a shell. *)
Definition no_shell_notices (image : Image) : list Notice :=
  [mkNotice base_origin
     (no_shell_listing E (image_name image) (image_tag image) (const_shell E))
     "warning";
   mkNotice base_origin (no_listing_for_base_key E "shell") "hint"].

(** The image once the shell has been resolved. *)
Definition after_shell (image : Image) (listing : Listing) : Image :=
  if negb (Py.opt_str_truthy (get_image_shell E listing).1)
  then mkImage (image_name image) (image_tag image) (image_option image)
               (layers image) (image_notices image ++ no_shell_notices image)
  else image.

(** The four invocations of [add_base_packages], in the shell of the
    listing. *)
Definition invoked (listing : Listing) (attr : Listing) : list string * string :=
  get_pkg_attr_list E (effective_shell listing) attr None.

End Base.

(** The layer with some more packages. *)
Definition add_packages (layer : Layer) (pkgs : list Package) : Layer :=
  mkLayer (layer_id layer) (packages layer ++ pkgs) (layer_notices layer).

(** An attribute list counts only when it is as long as the names. *)
Definition attr_at (names xs : list string) (index : nat) : option string :=
  if length xs =? length names then xs !! index else None.

(** The package the loop body has built when it reaches the layers. *)
Definition loop_package (names versions licenses src_urls : list string)
           (index : nat) : option Package :=
  name ← names !! index;
  Some (mkPackage name (attr_at names versions index)
                  (attr_at names licenses index)
                  (attr_at names src_urls index) [] []).

(** The packages of four aligned lists, index by index: each with the
    version, the license and the source URL found at its own index. *)
Fixpoint aligned_packages (names versions licenses src_urls : list string)
  : list Package :=
  match names, versions, licenses, src_urls with
  | n :: names, v :: versions, l :: licenses, u :: src_urls =>
      mkPackage n (Some v) (Some l) (Some u) [] []
        :: aligned_packages names versions licenses src_urls
  | _, _, _, _ => []
  end.

End Base.

(** ** Concrete inputs

    A small command library whose listings are their own keys, and the
    Debian base image with two layers, used to evaluate the functions. *)

Module Demo.

Definition cmd_cd : Command := mkCommand "cd /tmp" ["cd"; "/tmp"] true false true.
Definition cmd_apt : Command :=
  mkCommand "apt-get install git" ["git"] true true false.
Definition cmd_odd : Command := mkCommand "frobnicate" [] false false true.
Definition cmd_unknown : Command := mkCommand "mystery" [] false false false.
Definition commands : list Command := [cmd_cd; cmd_apt; cmd_odd; cmd_unknown].

(** Recipes as an association list from listing to invoked values. *)
Fixpoint recipe (table : list (string * list string)) (listing : string)
  : list string * string :=
  match table with
  | [] => ([], "no recipe for " +:+ listing)
  | (k, vs) :: table => if String.eqb k listing then (vs, "") else recipe table listing
  end.

Definition env (shell : option string) (container : bool)
           (table : list (string * list string))
           (cached : string → option (list PkgDict)) : Externals string :=
  mkExternals string
    (λ name tag, if String.eqb name "debian" then Some "debian" else None)
    (λ _, (shell, ""))
    (λ _ key, if String.eqb key "src_url"
              then (None, "no src_url key") else (Some key, ""))
    (λ _ listing _, recipe table listing)
    container
    cached
    "/bin/sh"
    (λ name tag shell, "no shell listed for " +:+ name)
    (λ key, "add the key " +:+ key)
    (λ name tag, "no listing for " +:+ name)
    "no running docker container"
    (λ id, "loading from cache: " +:+ id).

Definition info : Info string := mkInfo string "names" "versions" "licenses" "src_urls".

Definition aligned : list (string * list string) :=
  [("names", ["a"; "b"]); ("versions", ["1.0"; "2.0"]);
   ("licenses", ["MIT"; "MIT"]); ("src_urls", ["u1"; "u2"]);
   ("version", ["1.0"]); ("license", ["MIT"; "BSD"]);
   ("deps", ["x"; "y"; "x"])].

Definition only_one : list (string * list string) :=
  [("names", ["onlyone"]); ("versions", ["1.0"]);
   ("licenses", ["MIT"]); ("src_urls", ["u1"])].

Definition no_cache : string → option (list PkgDict) := λ _, None.

Definition cache_of_l2 : string → option (list PkgDict) :=
  λ id, if String.eqb id "l2"
        then Some [mkPkgDict "zlib" (Some "1.2") (Some "Zlib") None []]
        else None.

Definition git : Package := mkPackage "git" (Some "2.1") None None [] [].
Definition layer1 : Layer := mkLayer "l1" [git] [].
Definition layer2 : Layer := mkLayer "l2" [] [].
Definition layer3 : Layer := mkLayer "l3" [] [].
Definition debian : Image := mkImage "debian" "jessie" "debian:jessie" [layer1; layer2] [].
Definition debian3 : Image :=
  mkImage "debian" "jessie" "debian:jessie" [layer1; layer2; layer3] [].

(** Two layers under one id: the first holds a package, the second
    holds none. *)
Definition layer2_full : Layer := mkLayer "l2" [git] [].
Definition twins : Image :=
  mkImage "debian" "jessie" "debian:jessie" [layer2_full; layer2] [].

End Demo.

(** * Properties *)

(** ** Strings and truthiness *)

Lemma list_truthy_length {A} (l : list A) :
  Py.list_truthy l = true ↔ 0 < length l.
Proof. destruct l; simpl; split; intros; try done; lia. Qed.

Lemma str_app_assoc (a b c : string) : a +:+ (b +:+ c) = (a +:+ b) +:+ c.
Proof.
  induction a as [|ch a IH]; [done|].
  change (String ch (a +:+ (b +:+ c)) = String ch ((a +:+ b) +:+ c)).
  by f_equal.
Qed.

Lemma str_app_empty_r (a : string) : a +:+ "" = a.
Proof.
  induction a as [|ch a IH]; [done|].
  change (String ch (a +:+ "") = String ch a). by f_equal.
Qed.

(** ** The command filters *)

Section FilterFacts.
Import Filter.

Lemma command_text_app (cs ds : list Command) :
  command_text (cs ++ ds) = command_text cs +:+ command_text ds.
Proof.
  induction cs as [|c cs IH]; [done|].
  simpl. rewrite IH. by rewrite !str_app_assoc.
Qed.

(** What the first loop computes, for any state of its accumulators. *)
Lemma remove_ignored_loop_spec (cl : list Command) (acc : string)
      (fl : list Command) :
  remove_ignored_loop cl acc fl =
    (acc +:+ command_text (filter (λ c, ignored c) cl),
     fl ++ filter (λ c, ¬ ignored c) cl, []).
Proof.
  revert acc fl. induction cl as [|c cl IH]; intros acc fl.
  - simpl. by rewrite str_app_empty_r, app_nil_r.
  - simpl. destruct (is_set c && is_ignore c) eqn:Hc; rewrite IH.
    + rewrite filter_cons_True, filter_cons_False
        by (unfold ignored; rewrite Hc; naive_solver).
      simpl. by rewrite !str_app_assoc.
    + rewrite filter_cons_False, filter_cons_True
        by (unfold ignored; rewrite Hc; naive_solver).
      by rewrite <- app_assoc.
Qed.

Lemma remove_unrecognized_loop_spec (cl : list Command) (acc : string)
      (fl : list Command) :
  remove_unrecognized_loop cl acc fl =
    (acc +:+ command_text (filter (λ c, ¬ recognized c) cl),
     fl ++ filter (λ c, recognized c) cl, []).
Proof.
  revert acc fl. induction cl as [|c cl IH]; intros acc fl.
  - simpl. by rewrite str_app_empty_r, app_nil_r.
  - simpl. destruct (is_set c) eqn:Hc; simpl; rewrite IH.
    + rewrite filter_cons_False, filter_cons_True
        by (unfold recognized; rewrite Hc; naive_solver).
      by rewrite <- app_assoc.
    + rewrite filter_cons_True, filter_cons_False
        by (unfold recognized; rewrite Hc; naive_solver).
      simpl. by rewrite !str_app_assoc.
Qed.

Lemma remove_ignored_commands_spec (cl : list Command) :
  remove_ignored_commands cl =
    (command_text (filter (λ c, ignored c) cl),
     filter (λ c, ¬ ignored c) cl, []).
Proof. unfold remove_ignored_commands. by rewrite remove_ignored_loop_spec. Qed.

Lemma remove_unrecognized_commands_spec (cl : list Command) :
  remove_unrecognized_commands cl =
    (command_text (filter (λ c, ¬ recognized c) cl),
     filter (λ c, recognized c) cl, []).
Proof.
  unfold remove_unrecognized_commands.
  by rewrite remove_unrecognized_loop_spec.
Qed.

End FilterFacts.

Section FilterClaims.
Import Filter.

Lemma command_text_elem (cs : list Command) (c : Command) :
  c ∈ cs →
  ∃ pre post, command_text cs = pre +:+ shell_command c +:+ Py.newline +:+ post.
Proof.
  intros (l1 & l2 & ->)%list_elem_of_split.
  exists (command_text l1), (command_text l2).
  by rewrite command_text_app.
Qed.

Lemma three_way_split {A} (P Q : A → Prop) `{∀ x, Decision (P x)}
      `{∀ x, Decision (Q x)} (l : list A) :
  filter P l ++ filter (λ x, ¬ Q x) (filter (λ x, ¬ P x) l)
    ++ filter Q (filter (λ x, ¬ P x) l) ≡ₚ l.
Proof.
  rewrite (Permutation_app_comm (filter (λ x, ¬ Q x) _)).
  rewrite filter_app_complement. apply filter_app_complement.
Qed.

(** C5. The two command filters, composed, split the input three ways:
    the commands whose text is emitted as ignored, those whose text is
    emitted as unrecognized and those left in the filtered list are,
    taken together as a multiset, the input; the filtered list is a
    subsequence of the input, so it keeps the input's relative order.
    This holds with the ignored filter first and with the unrecognized
    filter first. *)
Theorem pipeline_partition (input : list Command) :
  let ign := filter (λ c, ignored c) input in
  let rest := filter (λ c, ¬ ignored c) input in
  let unrec := filter (λ c, ¬ recognized c) rest in
  let filtered := filter (λ c, recognized c) rest in
  let unrec' := filter (λ c, ¬ recognized c) input in
  let rest' := filter (λ c, recognized c) input in
  let ign' := filter (λ c, ignored c) rest' in
  let filtered' := filter (λ c, ¬ ignored c) rest' in
  (pipeline input = (command_text ign, command_text unrec, filtered)
   ∧ ign ++ unrec ++ filtered ≡ₚ input
   ∧ filtered `sublist_of` input)
  ∧ (pipeline_unrec_first input =
       (command_text ign', command_text unrec', filtered')
     ∧ ign' ++ unrec' ++ filtered' ≡ₚ input
     ∧ filtered' `sublist_of` input).
Proof.
  intros ign rest unrec filtered unrec' rest' ign' filtered'.
  split; split_and!.
  - unfold pipeline. rewrite remove_ignored_commands_spec.
    by rewrite remove_unrecognized_commands_spec.
  - apply three_way_split.
  - unfold filtered, rest. etrans; apply sublist_filter.
  - unfold pipeline_unrec_first. rewrite remove_unrecognized_commands_spec.
    by rewrite remove_ignored_commands_spec.
  - unfold ign', filtered', unrec', rest'.
    rewrite (Permutation_app_comm (filter (λ c, ¬ recognized c) input)).
    rewrite (app_assoc (filter _ _)), filter_app_complement.
    apply filter_app_complement.
  - unfold filtered', rest'. etrans; apply sublist_filter.
Qed.

(** C10. [remove_ignored_commands] drops a command of its input exactly
    when the command is both recognized and classified as ignore.  A
    command classified as ignore whose recognition flag is unset stays
    in the filtered output; a following [remove_unrecognized_commands]
    on that output emits its text and drops it. *)
Theorem ignore_needs_recognition (input : list Command) (c : Command) :
  c ∈ input →
  let filtered := (remove_ignored_commands input).1.2 in
  let second := remove_unrecognized_commands filtered in
  (c ∉ filtered ↔ is_set c = true ∧ is_ignore c = true)
  ∧ (is_ignore c = true → is_set c = false →
     c ∈ filtered
     ∧ (∃ pre post,
          second.1.1 = pre +:+ shell_command c +:+ Py.newline +:+ post)
     ∧ c ∉ second.1.2).
Proof.
  intros Hin filtered second. unfold second, filtered.
  rewrite remove_ignored_commands_spec, remove_unrecognized_commands_spec.
  simpl. split.
  - rewrite list_elem_of_filter. unfold ignored.
    destruct (is_set c), (is_ignore c); simpl; intuition congruence.
  - intros Hi Hs.
    assert (c ∈ filter (λ c, ¬ ignored c) input) as Hf.
    { apply list_elem_of_filter. unfold ignored. rewrite Hi, Hs. naive_solver. }
    split_and!; [done| |].
    + apply command_text_elem, list_elem_of_filter.
      unfold recognized. rewrite Hs. naive_solver.
    + rewrite list_elem_of_filter. unfold recognized. rewrite Hs. simpl. tauto.
Qed.

End FilterClaims.

Lemma ignore_needs_recognition_witness :
  Demo.cmd_odd ∈ Demo.commands
  ∧ Demo.cmd_odd ∈ (Filter.remove_ignored_commands Demo.commands).1.2
  ∧ Demo.cmd_odd ∉
      (Filter.remove_unrecognized_commands
         (Filter.remove_ignored_commands Demo.commands).1.2).1.2.
Proof.
  assert (Demo.cmd_odd ∈ Demo.commands) as Hin.
  { unfold Demo.commands. set_solver. }
  split; [exact Hin|].
  destruct (ignore_needs_recognition Demo.commands Demo.cmd_odd Hin)
    as [_ H].
  destruct (H eq_refl eq_refl) as (H1 & _ & H2). by split.
Defined.

Example pipeline_demo :
  Filter.pipeline Demo.commands =
    ("cd /tmp" +:+ Py.newline,
     "frobnicate" +:+ Py.newline +:+ "mystery" +:+ Py.newline,
     [Demo.cmd_apt]).
Proof. reflexivity. Qed.

(** ** The package metadata filler *)

Section MetadataClaims.
Context {Listing : Type} (E : Externals Listing).
Import Metadata.

Lemma elements_of_list (raw : list string) :
  elements (list_to_set raw : gset string) ≡ₚ remove_dups raw.
Proof.
  apply NoDup_Permutation.
  - apply NoDup_elements.
  - apply NoDup_remove_dups.
  - intros x. by rewrite elem_of_elements, elem_of_list_to_set,
      elem_of_remove_dups.
Qed.

(** C6. [get_package_dependencies] never returns a name twice.  When the
    command library has a listing under the deps key, the returned
    sequence has as many entries as the invoker returned distinct
    values, and holds exactly those values; without such a listing the
    invoker is not called and the sequence is empty. *)
Theorem dependencies_distinct (package_listing : Listing)
        (package_name shell : string) :
  let result :=
    (get_package_dependencies E package_listing package_name shell).1 in
  NoDup result
  ∧ match (check_library_key E package_listing "deps").1 with
    | Some deps_listing =>
        let raw :=
          (get_pkg_attr_list E shell deps_listing (Some package_name)).1 in
        length result = length (remove_dups raw)
        ∧ ∀ x, x ∈ result ↔ x ∈ raw
    | None => result = []
    end.
Proof.
  unfold get_package_dependencies.
  destruct (check_library_key E package_listing "deps") as [[dl|] msg]; simpl.
  - destruct (get_pkg_attr_list E shell dl (Some package_name))
      as [raw imsg]; simpl.
    destruct (Py.list_truthy raw) eqn:Ht; simpl.
    + split; [apply NoDup_elements|]. split.
      * by rewrite elements_of_list.
      * intros x. by rewrite elem_of_elements, elem_of_list_to_set.
    + destruct raw; [|done]. split; [constructor|]. by split.
  - split; [constructor | done].
Qed.

(** The package keeps its name through the version and license steps,
    so the third invocation is bound to the name the caller passed. *)
Lemma fill_package_metadata_name (pkg_obj : Package) (pkg_listing : Listing)
      (shell : string) :
  pkg_name (fill_package_metadata E pkg_obj pkg_listing shell) = pkg_name pkg_obj.
Proof.
  unfold fill_package_metadata.
  destruct (check_library_key E pkg_listing "version") as [[vl|] vmsg];
    destruct (check_library_key E pkg_listing "license") as [[ll|] lmsg];
    repeat match goal with
      | |- context [get_pkg_attr_list E ?s ?l ?n] =>
          destruct (get_pkg_attr_list E s l n) as [[|? ?] ?]; simpl
      end; reflexivity.
Qed.

(** C4. The source-URL step of [fill_package_metadata] takes its listing
    from the license key.  When that key has a listing and invoking it
    returns values, the package's source URL (and its license) is the
    first of them; when invoking it returns nothing, the source URL is
    left as it was and the last notice is the invocation error; when
    the key has no listing, the source URL is left as it was and the
    last notice is the warning carrying the lookup's message. *)
Theorem src_url_from_license_key (pkg_obj : Package) (pkg_listing : Listing)
        (shell : string) :
  let pkg' := fill_package_metadata E pkg_obj pkg_listing shell in
  match check_library_key E pkg_listing "license" with
  | (Some license_listing, _) =>
      match get_pkg_attr_list E shell license_listing
                              (Some (pkg_name pkg_obj)) with
      | (v :: _, _) =>
          pkg_src_url pkg' = Some v ∧ pkg_license pkg' = Some v
      | ([], invoke_msg) =>
          pkg_src_url pkg' = pkg_src_url pkg_obj
          ∧ last (pkg_notices pkg') =
              Some (mkNotice snippets_origin invoke_msg "error")
      end
  | (None, listing_msg) =>
      pkg_src_url pkg' = pkg_src_url pkg_obj
      ∧ last (pkg_notices pkg') =
          Some (mkNotice snippets_origin listing_msg "warning")
  end.
Proof.
  unfold fill_package_metadata.
  destruct (check_library_key E pkg_listing "version") as [[vl|] vmsg].
  1: destruct (get_pkg_attr_list E shell vl (Some (pkg_name pkg_obj)))
       as [[|v vs] vimsg].
  all: cbn [pkg_name set_version pkg_add_notice].
  all: destruct (check_library_key E pkg_listing "license") as [[ll|] lmsg].
  all: try destruct (get_pkg_attr_list E shell ll (Some (pkg_name pkg_obj)))
         as [[|u us] uimsg] eqn:Hu.
  all: cbn [pkg_name set_version set_license pkg_add_notice]; rewrite ?Hu.
  all: cbn; rewrite ?last_snoc; done.
Qed.

End MetadataClaims.

(** The result of [fill_package_metadata] depends on the package listing
    through its version and license keys only: two command libraries
    that answer alike under these two keys give the same package, what
    ever they answer under any other key. *)
Lemma fill_package_metadata_keys {Listing : Type} (E E' : Externals Listing)
      (pkg_obj : Package) (pkg_listing : Listing) (shell : string) :
  get_pkg_attr_list E = get_pkg_attr_list E' →
  check_library_key E pkg_listing "version" =
    check_library_key E' pkg_listing "version" →
  check_library_key E pkg_listing "license" =
    check_library_key E' pkg_listing "license" →
  Metadata.fill_package_metadata E pkg_obj pkg_listing shell =
    Metadata.fill_package_metadata E' pkg_obj pkg_listing shell.
Proof.
  intros Hi Hv Hl. unfold Metadata.fill_package_metadata.
  by rewrite Hi, Hv, Hl.
Qed.

Example fill_demo :
  Metadata.fill_package_metadata
    (Demo.env (Some "/bin/bash") true Demo.aligned Demo.no_cache)
    (new_package "git") "git" "/bin/bash"
  = mkPackage "git" (Some "1.0") (Some "MIT") (Some "MIT") [] [].
Proof. reflexivity. Qed.

Example deps_demo :
  Permutation
    (Metadata.get_package_dependencies
       (Demo.env (Some "/bin/bash") true Demo.aligned Demo.no_cache)
       "git" "git" "/bin/bash").1
    ["x"; "y"].
Proof. vm_compute. apply Permutation_refl || apply perm_swap. Qed.

(** ** The layer cache bridge *)

Section CacheFacts.
Context {Listing : Type} (E : Externals Listing).
Import Cache.

Lemma hydrate_spec (layer : Layer) (raw : list PkgDict) :
  hydrate layer raw =
    (mkLayer (layer_id layer) (packages layer ++ (cached_package <$> raw))
             (layer_notices layer),
     NewPackage ∘ d_name <$> raw).
Proof.
  revert layer. induction raw as [|d raw IH]; intros layer.
  - simpl. rewrite app_nil_r. by destruct layer.
  - simpl. rewrite IH. simpl. by rewrite <- app_assoc.
Qed.

(** The three ways through the loop body. *)
Lemma load_layer_skip (image : Image) (layer : Layer) (b : bool) :
  has_packages layer = true → load_layer E image layer b = (layer, b, []).
Proof. unfold load_layer, has_packages. by intros ->. Qed.

Lemma load_layer_miss (image : Image) (layer : Layer) (b : bool) :
  has_packages layer = false →
  Py.opt_list_truthy (cache_get_packages E (layer_id layer)) = false →
  load_layer E image layer b = (layer, false, [CacheGet (layer_id layer)]).
Proof. unfold load_layer, has_packages. by intros -> ->. Qed.

Lemma load_layer_hit (image : Image) (layer : Layer) (b : bool)
      (raw : list PkgDict) :
  has_packages layer = false →
  cache_get_packages E (layer_id layer) = Some raw →
  Py.list_truthy raw = true →
  load_layer E image layer b =
    (mkLayer (layer_id layer) (cached_package <$> raw)
       (layer_notices layer ++
          [mkNotice (image_option image +:+ layer_id layer)
                    (loading_from_cache E (layer_id layer)) "info"]),
     b,
     CacheGet (layer_id layer) :: (NewPackage ∘ d_name <$> raw)).
Proof.
  unfold load_layer, has_packages. intros Hp -> Hr. rewrite Hp. simpl.
  rewrite Hr. simpl. rewrite hydrate_spec. simpl.
  by destruct (packages layer).
Qed.

Lemma load_layer_cases (image : Image) (layer : Layer) :
  (has_packages layer = true)
  ∨ (has_packages layer = false
     ∧ Py.opt_list_truthy (cache_get_packages E (layer_id layer)) = false)
  ∨ (has_packages layer = false
     ∧ ∃ raw, cache_get_packages E (layer_id layer) = Some raw
              ∧ Py.list_truthy raw = true).
Proof.
  destruct (has_packages layer); [by left | right].
  destruct (cache_get_packages E (layer_id layer)) as [raw|] eqn:Hc;
    [|by left].
  destruct (Py.list_truthy raw) eqn:Hr; [right | left]; eauto.
Qed.

(** The flag only ever goes down, and by the layer alone. *)
Lemma load_layer_flag (image : Image) (layer : Layer) (b : bool) :
  load_layer E image layer b =
    ((load_layer E image layer true).1.1,
     b && (load_layer E image layer true).1.2,
     (load_layer E image layer true).2).
Proof.
  destruct (load_layer_cases image layer) as [H|[[H1 H2]|[H1 (raw&H2&H3)]]].
  - rewrite !load_layer_skip by done. simpl. by rewrite andb_true_r.
  - rewrite !load_layer_miss by done. simpl. by rewrite andb_false_r.
  - rewrite !(load_layer_hit _ _ _ raw) by done. simpl.
    by rewrite andb_true_r.
Qed.

(** The outer loop, layer by layer. *)
Lemma load_layers_spec (image : Image) (ls : list Layer) (b : bool) :
  load_layers E image ls b =
    ((λ l, (load_layer E image l true).1.1) <$> ls,
     b && forallb (λ l, (load_layer E image l true).1.2) ls,
     concat ((λ l, (load_layer E image l true).2) <$> ls)).
Proof.
  revert b. induction ls as [|l ls IH]; intros b.
  - simpl. by rewrite andb_true_r.
  - simpl. rewrite (load_layer_flag image l b), IH. simpl.
    by rewrite andb_assoc.
Qed.

(** After the body, the flag it contributes says whether the layer
    holds packages. *)
Lemma load_layer_full (image : Image) (layer : Layer) :
  (load_layer E image layer true).1.2 =
    has_packages (load_layer E image layer true).1.1.
Proof.
  destruct (load_layer_cases image layer) as [H|[[H1 H2]|[H1 (raw&H2&H3)]]].
  - rewrite !load_layer_skip by done. simpl. by rewrite H.
  - rewrite !load_layer_miss by done. simpl. by rewrite H1.
  - rewrite !(load_layer_hit _ _ _ raw) by done. simpl.
    unfold has_packages. simpl. by destruct raw.
Qed.

Lemma load_layer_sourced (image : Image) (layer : Layer) :
  sourced E layer (load_layer E image layer true).1.1.
Proof.
  destruct (load_layer_cases image layer) as [H|[[H1 H2]|[H1 (raw&H2&H3)]]].
  - rewrite !load_layer_skip by done. split; [done | by left].
  - rewrite !load_layer_miss by done. split; [done | by left].
  - rewrite !(load_layer_hit _ _ _ raw) by done. split; [done | right].
    unfold has_packages in H1. destruct (packages layer); [|done].
    split; [done|]. by exists raw.
Qed.

Lemma load_layer_queries (image : Image) (layer : Layer) :
  cache_queries (load_layer E image layer true).2 =
    if has_packages layer then [] else [layer_id layer].
Proof.
  destruct (load_layer_cases image layer) as [H|[[H1 H2]|[H1 (raw&H2&H3)]]].
  - rewrite !load_layer_skip by done. by rewrite H.
  - rewrite !load_layer_miss by done. by rewrite H1.
  - rewrite !(load_layer_hit _ _ _ raw) by done. rewrite H1.
    unfold cache_queries. simpl. f_equal.
    clear. induction raw as [|d raw IH]; [done | apply IH].
Qed.

Lemma has_packages_nonempty (layer : Layer) :
  has_packages layer = true ↔ packages layer ≠ [].
Proof. unfold has_packages. by destruct (packages layer). Qed.

End CacheFacts.

Section CacheClaims.
Context {Listing : Type} (E : Externals Listing).
Import Cache.

Lemma load_from_cache_spec (image : Image) :
  load_from_cache E image =
    (with_layers image ((λ l, (load_layer E image l true).1.1) <$> layers image),
     forallb (λ l, (load_layer E image l true).1.2) (layers image),
     concat ((λ l, (load_layer E image l true).2) <$> layers image)).
Proof. unfold load_from_cache. by rewrite load_layers_spec. Qed.

Lemma cache_queries_app (t1 t2 : list Event) :
  cache_queries (t1 ++ t2) = cache_queries t1 ++ cache_queries t2.
Proof. apply omap_app. Qed.

Lemma queries_of_layers (image : Image) (ls : list Layer) :
  cache_queries (concat ((λ l, (load_layer E image l true).2) <$> ls)) =
    layer_id <$> filter (λ l, ¬ has_packages l) ls.
Proof.
  induction ls as [|l ls IH]; [done|].
  rewrite fmap_cons. simpl concat.
  rewrite cache_queries_app, IH, load_layer_queries.
  destruct (has_packages l) eqn:Hl.
  - rewrite filter_cons_False; [done|]. rewrite Hl. simpl. tauto.
  - rewrite filter_cons_True; [done|]. rewrite Hl. simpl. tauto.
Qed.

(** C3. [load_from_cache] returns [is_full] true exactly when every
    layer of the image holds at least one package when the call ends;
    and the packages a layer holds then are those it held before the
    call, or, for a layer that held none, those cached under its id. *)
Theorem is_full_iff_every_layer_has_packages (image : Image) :
  let result := load_from_cache E image in
  (result.1.2 = true ↔ Forall (λ l, packages l ≠ []) (layers result.1.1))
  ∧ Forall2 (sourced E) (layers image) (layers result.1.1).
Proof.
  rewrite load_from_cache_spec. simpl. split.
  - rewrite <- Is_true_true, forallb_True, Forall_fmap.
    apply Forall_iff. intros l. simpl.
    by rewrite load_layer_full, Is_true_true, has_packages_nonempty.
  - apply Forall2_fmap_r, Forall_Forall2_diag, Forall_forall.
    intros l _. apply load_layer_sourced.
Qed.

(** C7, as the code has it. A layer that holds a package when
    [load_from_cache] is called goes through the loop body without a
    call to the cache and without a change; it is the same layer, at the
    same place, when the call ends.  The cache is asked once for each
    layer that holds no package, in image order, and for nothing else:
    the id of the layer is asked for exactly when some layer of the
    image without packages carries that id. *)
Theorem layers_with_packages_untouched (image : Image) (i : nat)
        (layer : Layer) :
  layers image !! i = Some layer →
  packages layer ≠ [] →
  let result := load_from_cache E image in
  (∀ is_full, load_layer E image layer is_full = (layer, is_full, []))
  ∧ layers result.1.1 !! i = Some layer
  ∧ cache_queries result.2 =
      layer_id <$> filter (λ l, ¬ has_packages l) (layers image)
  ∧ (layer_id layer ∈ cache_queries result.2
     ↔ Exists (λ l, has_packages l = false ∧ layer_id l = layer_id layer)
              (layers image)).
Proof.
  intros Hi Hp%has_packages_nonempty. rewrite load_from_cache_spec. simpl.
  split_and!.
  - intros b. by apply load_layer_skip.
  - rewrite list_lookup_fmap, Hi. simpl. by rewrite load_layer_skip.
  - apply queries_of_layers.
  - rewrite queries_of_layers, Exists_exists, list_elem_of_fmap.
    split.
    + intros (l & Hid & [Hl Hin]%list_elem_of_filter).
      exists l. split; [done|]. split; [|done].
      by destruct (has_packages l).
    + intros (l & Hin & Hl & Hid). exists l. split; [done|].
      apply list_elem_of_filter. split; [|done]. rewrite Hl. simpl. tauto.
Qed.

(** C7, as the claim has it, fails: two layers of one image under the
    id l2, the first holding a package and the second none.  The call
    leaves the first layer alone and asks the cache for l2 all the
    same, on behalf of the second. *)
Lemma shared_id_is_queried :
  let result :=
    load_from_cache (Demo.env None true [] Demo.cache_of_l2) Demo.twins in
  layers Demo.twins !! 0 = Some Demo.layer2_full
  ∧ packages Demo.layer2_full ≠ []
  ∧ result.2 = [CacheGet "l2"; NewPackage "zlib"]
  ∧ layer_id Demo.layer2_full ∈ cache_queries result.2.
Proof.
  intros result. split; [reflexivity|]. split; [discriminate|].
  split; [reflexivity|]. vm_compute. apply list_elem_of_here.
Qed.

End CacheClaims.

Example load_demo :
  Cache.load_from_cache (Demo.env None true [] Demo.cache_of_l2) Demo.debian3
  = (mkImage "debian" "jessie" "debian:jessie"
       [Demo.layer1;
        mkLayer "l2" [mkPackage "zlib" (Some "1.2") (Some "Zlib") None [] []]
                [mkNotice "debian:jessiel2" "loading from cache: l2" "info"];
        Demo.layer3] [],
     false,
     [CacheGet "l2"; NewPackage "zlib"; CacheGet "l3"]).
Proof. reflexivity. Qed.

Lemma layers_with_packages_untouched_witness :
  layers Demo.debian3 !! 0 = Some Demo.layer1
  ∧ packages Demo.layer1 ≠ []
  ∧ layers (Cache.load_from_cache
              (Demo.env None true [] Demo.cache_of_l2) Demo.debian3).1.1 !! 0
    = Some Demo.layer1
  ∧ Cache.cache_queries
      (Cache.load_from_cache
         (Demo.env None true [] Demo.cache_of_l2) Demo.debian3).2
    = ["l2"; "l3"].
Proof.
  assert (layers Demo.debian3 !! 0 = Some Demo.layer1) as H0 by reflexivity.
  assert (packages Demo.layer1 ≠ []) as H1 by discriminate.
  destruct (layers_with_packages_untouched
              (Demo.env None true [] Demo.cache_of_l2)
              Demo.debian3 0 Demo.layer1 H0 H1) as (_ & H2 & H3 & _).
  split; [exact H0|]. split; [exact H1|]. split; [exact H2|].
  rewrite H3. reflexivity.
Defined.

(** ** The base package loader *)

Section LoopFacts.
Import Base.

Lemma omap_seq_lookup {A} (f : nat → option A) (L : list A) (a : nat) :
  (∀ i, i < length L → f (a + i) = L !! i) →
  omap f (seq a (length L)) = L.
Proof.
  revert a. induction L as [|x L IH]; intros a Hf; [done|].
  simpl. specialize (Hf 0 ltac:(simpl; lia)) as H0.
  rewrite Nat.add_0_r in H0. rewrite H0. simpl. f_equal.
  apply IH. intros i Hi. replace (S a + i) with (a + S i) by lia.
  apply Hf. simpl. lia.
Qed.

Lemma omap_names (names : list string) :
  omap (λ i, names !! i) (seq 0 (length names)) = names.
Proof. by apply omap_seq_lookup. Qed.

Lemma aligned_packages_length (names versions licenses src_urls : list string) :
  length versions = length names →
  length licenses = length names →
  length src_urls = length names →
  length (aligned_packages names versions licenses src_urls) = length names.
Proof.
  revert versions licenses src_urls.
  induction names as [|n names IH]; intros [|v vs] [|l ls] [|u us];
    simpl; try done.
  intros ???. f_equal. apply IH; lia.
Qed.

Lemma aligned_packages_lookup (names versions licenses src_urls : list string)
      (i : nat) :
  length versions = length names →
  length licenses = length names →
  length src_urls = length names →
  aligned_packages names versions licenses src_urls !! i =
    loop_package names versions licenses src_urls i.
Proof.
  intros Hv Hl Hu. unfold loop_package, attr_at.
  rewrite Hv, Hl, Hu, Nat.eqb_refl. clear -Hv Hl Hu.
  revert versions licenses src_urls i Hv Hl Hu.
  induction names as [|n names IH]; intros [|v vs] [|l ls] [|u us] i;
    simpl; try done.
  intros ???. destruct i as [|i]; [done|]. simpl. apply IH; lia.
Qed.

Lemma loop_packages_aligned (names versions licenses src_urls : list string) :
  length versions = length names →
  length licenses = length names →
  length src_urls = length names →
  omap (loop_package names versions licenses src_urls)
       (seq 0 (length names)) =
    aligned_packages names versions licenses src_urls.
Proof.
  intros Hv Hl Hu.
  rewrite <- (aligned_packages_length names versions licenses src_urls)
    at 1 by done.
  apply omap_seq_lookup. intros i _. simpl.
  by rewrite aligned_packages_lookup.
Qed.

Lemma add_packages_nil (layer : Layer) : add_packages layer [] = layer.
Proof. unfold add_packages. rewrite app_nil_r. by destruct layer. Qed.

Lemma add_packages_cons (layer : Layer) (p : Package) (ps : list Package) :
  add_packages (layer_add_package layer p) ps = add_packages layer (p :: ps).
Proof. unfold add_packages. simpl. by rewrite <- app_assoc. Qed.

(** One turn of the loop, for an index inside the names. *)
Lemma package_step_spec (names versions licenses src_urls : list string)
      (ls : list Layer) (trace : list Event) (index : nat) (name : string) :
  names !! index = Some name →
  ∃ pkg,
    loop_package names versions licenses src_urls index = Some pkg
    ∧ package_step names versions licenses src_urls (ls, trace) index =
        Some (if length src_urls =? length names
              then (λ layer, layer_add_package layer pkg) <$> ls
              else ls,
              trace ++ [NewPackage name]).
Proof.
  intros Hn. unfold loop_package, package_step, attr_at. rewrite Hn. simpl.
  assert (∀ xs : list string, length xs = length names →
                              ∃ x, xs !! index = Some x) as Hx.
  { intros xs Hxs. apply lookup_lt_is_Some_2. rewrite Hxs.
    by eapply lookup_lt_Some. }
  eexists. split; [done|].
  destruct (Nat.eqb_spec (length versions) (length names)) as [Hv|Hv];
    [destruct (Hx _ Hv) as [v ->] |];
    (destruct (Nat.eqb_spec (length licenses) (length names)) as [Hl|Hl];
     [destruct (Hx _ Hl) as [l ->] |]);
    (destruct (Nat.eqb_spec (length src_urls) (length names)) as [Hu|Hu];
     [destruct (Hx _ Hu) as [u ->] |]); done.
Qed.

(** The whole loop, over indices inside the names: it never raises. *)
Lemma package_loop_spec (names versions licenses src_urls : list string)
      (idxs : list nat) (ls : list Layer) (trace : list Event) :
  Forall (λ i, i < length names) idxs →
  for_each (package_step names versions licenses src_urls) idxs (ls, trace) =
    Some (if length src_urls =? length names
          then (λ layer,
                  add_packages layer
                    (omap (loop_package names versions licenses src_urls) idxs))
                 <$> ls
          else ls,
          trace ++ (NewPackage <$> omap (λ i, names !! i) idxs)).
Proof.
  revert ls trace. induction idxs as [|i idxs IH]; intros ls trace Hall.
  - simpl. rewrite app_nil_r. f_equal. f_equal.
    destruct (_ =? _); [|done].
    rewrite <- (list_fmap_id ls) at 1. apply list_fmap_ext.
    intros ???. by rewrite add_packages_nil.
  - apply Forall_cons in Hall as [Hi Hall].
    destruct (lookup_lt_is_Some_2 names i Hi) as [name Hname].
    destruct (package_step_spec names versions licenses src_urls
                                ls trace i name Hname) as (pkg & Hp & Hs).
    cbn [for_each]. rewrite Hs. cbn [mbind option_bind]. rewrite IH by done.
    cbn [omap list_omap]. rewrite Hname, Hp. simpl. rewrite <- app_assoc. simpl.
    f_equal. f_equal.
    destruct (_ =? _); [|done].
    rewrite <- list_fmap_compose. apply list_fmap_ext.
    intros ???. simpl. apply add_packages_cons.
Qed.

End LoopFacts.

Section BaseFacts.
Context {Listing : Type} (E : Externals Listing).
Import Base.

Lemma after_shell_layers (image : Image) (listing : Listing) :
  layers (after_shell E image listing) = layers image.
Proof. unfold after_shell. by destruct (negb _). Qed.

Lemma after_shell_notices (image : Image) (listing : Listing) :
  image_notices (after_shell E image listing) =
    image_notices image ++
      (if Py.opt_str_truthy (get_image_shell E listing).1
       then [] else no_shell_notices E image).
Proof.
  unfold after_shell. destruct (Py.opt_str_truthy _); simpl; [|done].
  by rewrite app_nil_r.
Qed.

Lemma after_shell_same (image : Image) (listing : Listing) :
  Py.opt_str_truthy (get_image_shell E listing).1 = true →
  after_shell E image listing = image.
Proof. unfold after_shell. by intros ->. Qed.

(** The call when the listing exists and no container runs. *)
Lemma add_base_packages_stopped (image : Image) (info : Info Listing)
      (listing : Listing) :
  get_base_listing E (image_name image) (image_tag image) = Some listing →
  check_container E = false →
  add_base_packages E image info =
    Some (after_shell E image listing,
          [LogError (no_running_docker_container E)]).
Proof.
  intros Hl Hc. unfold add_base_packages, after_shell. rewrite Hl.
  destruct (get_image_shell E listing) as [shell msg]. simpl.
  destruct (Py.opt_str_truthy shell); simpl; rewrite Hc; [done|].
  unfold image_add_notice, no_shell_notices. simpl.
  by rewrite <- app_assoc.
Qed.

(** The call when the listing exists and a container runs. *)
Lemma add_base_packages_running (image : Image) (info : Info Listing)
      (listing : Listing) :
  get_base_listing E (image_name image) (image_tag image) = Some listing →
  check_container E = true →
  let names := (invoked E listing (info_names info)).1 in
  let versions := (invoked E listing (info_versions info)).1 in
  let licenses := (invoked E listing (info_licenses info)).1 in
  let src_urls := (invoked E listing (info_src_urls info)).1 in
  let invoke_msg :=
    (((invoked E listing (info_names info)).2
      +:+ (invoked E listing (info_versions info)).2)
     +:+ (invoked E listing (info_licenses info)).2)
    +:+ (invoked E listing (info_src_urls info)).2 in
  let image1 := after_shell E image listing in
  let image2 :=
    if Py.str_truthy invoke_msg
    then image_add_notice image1 (mkNotice base_origin invoke_msg "error")
    else image1 in
  let built := Py.list_truthy names && (1 <? length names) in
  let ls :=
    if built && (length src_urls =? length names)
    then (λ layer,
            add_packages layer
              (omap (loop_package names versions licenses src_urls)
                    (seq 0 (length names)))) <$> layers image
    else layers image in
  add_base_packages E image info =
    Some (with_layers image2 ls,
          (if built then NewPackage <$> names else [])
            ++ (CacheAdd <$> ls)).
Proof.
  intros Hl Hc. unfold invoked, effective_shell, after_shell.
  unfold add_base_packages. rewrite Hl.
  destruct (get_image_shell E listing) as [shell msg]. simpl.
  set (sh := if negb (Py.opt_str_truthy shell)
             then const_shell E else default "" shell).
  set (img := if negb (Py.opt_str_truthy shell) then _ else image).
  assert (layers img = layers image) as Hlayers.
  { unfold img. by destruct (negb _). }
  replace (if negb (Py.opt_str_truthy shell)
           then (image_add_notice
                   (image_add_notice image
                      (mkNotice base_origin
                         (no_shell_listing E (image_name image)
                            (image_tag image) (const_shell E)) "warning"))
                   (mkNotice base_origin
                      (no_listing_for_base_key E "shell") "hint"),
                 const_shell E)
           else (image, default "" shell))
    with (img, sh).
  2: { unfold img, sh. destruct (negb _); [|done].
       unfold image_add_notice, no_shell_notices. simpl.
       by rewrite <- app_assoc. }
  rewrite Hc.
  destruct (get_pkg_attr_list E sh (info_names info) None) as [names n_msg].
  destruct (get_pkg_attr_list E sh (info_versions info) None)
    as [versions v_msg].
  destruct (get_pkg_attr_list E sh (info_licenses info) None)
    as [licenses l_msg].
  destruct (get_pkg_attr_list E sh (info_src_urls info) None)
    as [src_urls u_msg].
  cbn [fst snd].
  set (img2 := if Py.str_truthy _ then _ else img).
  assert (layers img2 = layers image) as Hlayers2.
  { unfold img2. by destruct (Py.str_truthy _). }
  destruct (Py.list_truthy names && (1 <? length names)) eqn:Hb.
  - rewrite package_loop_spec
      by (apply Forall_forall; intros i Hi%elem_of_seq; lia).
    rewrite omap_names. cbn [andb mbind option_bind].
    rewrite Hlayers2. simpl. by destruct (_ =? _).
  - cbn [andb mbind option_bind]. rewrite Hlayers2. simpl.
    by destruct img2.
Qed.

End BaseFacts.

Section BaseClaims.
Context {Listing : Type} (E : Externals Listing).
Import Base.

Lemma filter_new_package_cache_add (ls : list Layer) :
  List.filter is_new_package (CacheAdd <$> ls) = [].
Proof. induction ls as [|l ls IH]; [done | apply IH]. Qed.

Lemma filter_cache_add_new_package (names : list string) :
  List.filter is_cache_add (NewPackage <$> names) = [].
Proof. induction names as [|n names IH]; [done | apply IH]. Qed.

(** C1. With a base listing and a running container, the packages reach
    the layers only through the length check of the source URLs against
    the names: when the two lengths differ, the layers are after the
    call what they were before; when names, versions, licenses and
    source URLs have one length, greater than one, every layer has
    gained, in index order, one package per name, carrying the version,
    the license and the source URL found at its index. *)
Theorem packages_attached_under_src_url_check (image : Image)
        (info : Info Listing) (listing : Listing) :
  get_base_listing E (image_name image) (image_tag image) = Some listing →
  check_container E = true →
  let names := (invoked E listing (info_names info)).1 in
  let versions := (invoked E listing (info_versions info)).1 in
  let licenses := (invoked E listing (info_licenses info)).1 in
  let src_urls := (invoked E listing (info_src_urls info)).1 in
  ∃ image' trace,
    add_base_packages E image info = Some (image', trace)
    ∧ (length src_urls ≠ length names → layers image' = layers image)
    ∧ (1 < length names →
       length versions = length names →
       length licenses = length names →
       length src_urls = length names →
       layers image' =
         (λ layer,
            add_packages layer
              (aligned_packages names versions licenses src_urls))
           <$> layers image).
Proof.
  intros Hl Hc names versions licenses src_urls.
  eexists _, _. split; [by apply add_base_packages_running|].
  fold names versions licenses src_urls. simpl. split.
  - intros Hne. apply Nat.eqb_neq in Hne. rewrite Hne.
    by rewrite andb_false_r.
  - intros Hn Hv Hli Hu.
    assert (Py.list_truthy names = true) as ->.
    { apply list_truthy_length. lia. }
    assert ((1 <? length names) = true) as -> by (apply Nat.ltb_lt; lia).
    rewrite Hu, Nat.eqb_refl. simpl.
    by rewrite loop_packages_aligned.
Qed.

(** C8. With a base listing, when the names come back empty or with one
    entry, [add_base_packages] constructs no package, whatever versions,
    licenses and source URLs come back, and the layers are after the
    call what they were before. *)
Theorem no_package_for_short_names (image : Image) (info : Info Listing)
        (listing : Listing) :
  get_base_listing E (image_name image) (image_tag image) = Some listing →
  length (invoked E listing (info_names info)).1 ≤ 1 →
  ∃ image' trace,
    add_base_packages E image info = Some (image', trace)
    ∧ List.filter is_new_package trace = []
    ∧ layers image' = layers image.
Proof.
  intros Hl Hn. destruct (check_container E) eqn:Hc.
  - eexists _, _. split; [by apply add_base_packages_running|].
    assert (andb (Py.list_truthy (invoked E listing (info_names info)).1)
                 (1 <? length (invoked E listing (info_names info)).1) = false)
      as ->.
    { apply andb_false_iff. right. apply Nat.ltb_ge. lia. }
    simpl. split; [apply filter_new_package_cache_add | done].
  - eexists _, _. split; [by apply add_base_packages_stopped|].
    split; [done | apply after_shell_layers].
Qed.

(** C9. With a base listing and a running container,
    [add_base_packages] ends with one call of [cache.add_layer] per
    layer of the image, in image order, on the layer as the call leaves
    it, and makes no other such call: this whatever the invocations
    returned, values or error messages. *)
Theorem every_layer_written_to_cache (image : Image) (info : Info Listing)
        (listing : Listing) :
  get_base_listing E (image_name image) (image_tag image) = Some listing →
  check_container E = true →
  ∃ image' before,
    add_base_packages E image info =
      Some (image', before ++ (CacheAdd <$> layers image'))
    ∧ List.filter is_cache_add before = []
    ∧ layer_id <$> layers image' = layer_id <$> layers image.
Proof.
  intros Hl Hc.
  pose proof (add_base_packages_running E image info listing Hl Hc) as Hrun.
  cbv zeta in Hrun. rewrite Hrun.
  match goal with
  | |- context [Some (with_layers ?i ?ls, ?t ++ _)] =>
      exists (with_layers i ls), t
  end.
  clear Hrun. split; [reflexivity|]. simpl. split.
  - destruct (Py.list_truthy _ && (1 <? _));
      [apply filter_cache_add_new_package | done].
  - destruct (Py.list_truthy _ && (1 <? _) && (_ =? _)); [|done].
    rewrite <- list_fmap_compose. by apply list_fmap_ext.
Qed.

(** C2, as the code has it. With a base listing and no running
    container, [add_base_packages] logs the condition and returns: it
    adds no package, attaches no notice to a layer (the layers are what
    they were), writes nothing to the cache and constructs no package.
    The image's own notices are what they were when the listing names a
    shell; when it names none, the warning and the hint about the
    missing shell, attached before the container check, are there. *)
Theorem no_container_no_packages (image : Image) (info : Info Listing)
        (listing : Listing) :
  get_base_listing E (image_name image) (image_tag image) = Some listing →
  check_container E = false →
  ∃ image',
    add_base_packages E image info =
      Some (image', [LogError (no_running_docker_container E)])
    ∧ layers image' = layers image
    ∧ image_notices image' =
        image_notices image ++
          (if Py.opt_str_truthy (get_image_shell E listing).1
           then [] else no_shell_notices E image)
    ∧ (Py.opt_str_truthy (get_image_shell E listing).1 = true →
       image' = image).
Proof.
  intros Hl Hc. eexists. split; [by apply add_base_packages_stopped|].
  split; [apply after_shell_layers|].
  split; [apply after_shell_notices | apply after_shell_same].
Qed.

End BaseClaims.

(** ** The base package loader on the Debian image *)

Section BaseExamples.
Import Base.

Example aligned_demo :
  add_base_packages (Demo.env (Some "/bin/bash") true Demo.aligned Demo.no_cache)
                    Demo.debian Demo.info
  = let a := mkPackage "a" (Some "1.0") (Some "MIT") (Some "u1") [] [] in
    let b := mkPackage "b" (Some "2.0") (Some "MIT") (Some "u2") [] [] in
    let l1 := mkLayer "l1" [Demo.git; a; b] [] in
    let l2 := mkLayer "l2" [a; b] [] in
    Some (mkImage "debian" "jessie" "debian:jessie" [l1; l2] [],
          [NewPackage "a"; NewPackage "b"; CacheAdd l1; CacheAdd l2]).
Proof. reflexivity. Qed.

Example misaligned_demo :
  add_base_packages
    (Demo.env (Some "/bin/bash") true
       [("names", ["a"; "b"]); ("versions", ["1.0"; "2.0"]);
        ("licenses", ["MIT"; "MIT"]); ("src_urls", ["u1"])]
       Demo.no_cache)
    Demo.debian Demo.info
  = Some (Demo.debian,
          [NewPackage "a"; NewPackage "b";
           CacheAdd Demo.layer1; CacheAdd Demo.layer2]).
Proof. reflexivity. Qed.

Example only_one_demo :
  add_base_packages (Demo.env (Some "/bin/bash") true Demo.only_one Demo.no_cache)
                    Demo.debian Demo.info
  = Some (Demo.debian, [CacheAdd Demo.layer1; CacheAdd Demo.layer2]).
Proof. reflexivity. Qed.

End BaseExamples.

Lemma packages_attached_under_src_url_check_witness :
  let E := Demo.env (Some "/bin/bash") true Demo.aligned Demo.no_cache in
  get_base_listing E "debian" "jessie" = Some "debian"
  ∧ check_container E = true
  ∧ ∃ image' trace,
      Base.add_base_packages E Demo.debian Demo.info = Some (image', trace)
      ∧ layers image' =
          (λ layer,
             Base.add_packages layer
               (Base.aligned_packages ["a"; "b"] ["1.0"; "2.0"]
                                      ["MIT"; "MIT"] ["u1"; "u2"]))
            <$> layers Demo.debian.
Proof.
  intros E.
  assert (get_base_listing E (image_name Demo.debian) (image_tag Demo.debian)
          = Some "debian") as Hl by reflexivity.
  assert (check_container E = true) as Hc by reflexivity.
  split; [exact Hl|]. split; [exact Hc|].
  destruct (packages_attached_under_src_url_check
              E Demo.debian Demo.info "debian" Hl Hc)
    as (image' & trace & Hrun & _ & Haligned).
  exists image', trace. split; [exact Hrun|].
  apply Haligned; vm_compute; lia.
Defined.

Lemma no_package_for_short_names_witness :
  let E := Demo.env (Some "/bin/bash") true Demo.only_one Demo.no_cache in
  get_base_listing E "debian" "jessie" = Some "debian"
  ∧ length (Base.invoked E "debian" (info_names Demo.info)).1 ≤ 1
  ∧ ∃ image' trace,
      Base.add_base_packages E Demo.debian Demo.info = Some (image', trace)
      ∧ List.filter is_new_package trace = []
      ∧ layers image' = layers Demo.debian.
Proof.
  intros E.
  assert (get_base_listing E (image_name Demo.debian) (image_tag Demo.debian)
          = Some "debian") as Hl by reflexivity.
  assert (length (Base.invoked E "debian" (info_names Demo.info)).1 ≤ 1)
    as Hn by (vm_compute; lia).
  split; [exact Hl|]. split; [exact Hn|].
  exact (no_package_for_short_names E Demo.debian Demo.info "debian" Hl Hn).
Defined.

Lemma every_layer_written_to_cache_witness :
  let E := Demo.env None true [] Demo.no_cache in
  get_base_listing E "debian" "jessie" = Some "debian"
  ∧ check_container E = true
  ∧ ∃ image' before,
      Base.add_base_packages E Demo.debian Demo.info =
        Some (image', before ++ (CacheAdd <$> layers image'))
      ∧ List.filter is_cache_add before = []
      ∧ layer_id <$> layers image' = layer_id <$> layers Demo.debian.
Proof.
  intros E.
  assert (get_base_listing E (image_name Demo.debian) (image_tag Demo.debian)
          = Some "debian") as Hl by reflexivity.
  assert (check_container E = true) as Hc by reflexivity.
  split; [exact Hl|]. split; [exact Hc|].
  exact (every_layer_written_to_cache E Demo.debian Demo.info "debian" Hl Hc).
Defined.

(** C2, as the claim has it, fails: a base listing that names no shell,
    no running container.  The call logs the condition and still leaves
    two notices on the image. *)
Lemma no_container_still_shell_notices :
  let E := Demo.env None false Demo.aligned Demo.no_cache in
  get_base_listing E (image_name Demo.debian) (image_tag Demo.debian)
    = Some "debian"
  ∧ check_container E = false
  ∧ ∃ image',
      Base.add_base_packages E Demo.debian Demo.info =
        Some (image', [LogError "no running docker container"])
      ∧ image_notices Demo.debian = []
      ∧ image_notices image' =
          [mkNotice "command_lib/base.yml" "no shell listed for debian" "warning";
           mkNotice "command_lib/base.yml" "add the key shell" "hint"]
      ∧ image' ≠ Demo.debian.
Proof.
  intros E. split; [reflexivity|]. split; [reflexivity|].
  eexists. split; [reflexivity|]. split; [reflexivity|].
  split; [reflexivity | discriminate].
Qed.

Lemma no_container_no_packages_witness :
  let E := Demo.env (Some "/bin/bash") false Demo.aligned Demo.no_cache in
  get_base_listing E "debian" "jessie" = Some "debian"
  ∧ check_container E = false
  ∧ Base.add_base_packages E Demo.debian Demo.info =
      Some (Demo.debian, [LogError "no running docker container"]).
Proof.
  intros E.
  assert (get_base_listing E (image_name Demo.debian) (image_tag Demo.debian)
          = Some "debian") as Hl by reflexivity.
  assert (check_container E = false) as Hc by reflexivity.
  split; [exact Hl|]. split; [exact Hc|].
  destruct (no_container_no_packages E Demo.debian Demo.info "debian" Hl Hc)
    as (image' & Hrun & _ & _ & Hsame).
  rewrite Hrun. by rewrite (Hsame eq_refl).
Defined.

(** * Further properties of the command filters *)

Section FilterMore.
Import Filter.

Lemma filter_none {A} (P : A → Prop) `{∀ x, Decision (P x)} (l : list A) :
  Forall (λ x, ¬ P x) l → filter P l = [].
Proof.
  induction 1 as [|x l Hx _ IH]; [done|].
  by rewrite filter_cons_False.
Qed.

Lemma filter_all {A} (P : A → Prop) `{∀ x, Decision (P x)} (l : list A) :
  Forall P l → filter P l = l.
Proof.
  induction 1 as [|x l Hx _ IH]; [done|].
  rewrite filter_cons_True by done. by f_equal.
Qed.

Lemma Forall_filter_holds {A} (P : A → Prop) `{∀ x, Decision (P x)}
      (l : list A) :
  Forall P (filter P l).
Proof. apply Forall_forall. by intros x [? _]%list_elem_of_filter. Qed.

Lemma ignored_recognized (c : Command) : ignored c → recognized c.
Proof. unfold ignored, recognized. by destruct (is_set c). Qed.

(** Both filters consume the list they are given: when they return, the
    caller's list is empty, whatever it held. *)
Theorem filters_drain_input (command_list : list Command) :
  (remove_ignored_commands command_list).2 = []
  ∧ (remove_unrecognized_commands command_list).2 = [].
Proof.
  by rewrite remove_ignored_commands_spec, remove_unrecognized_commands_spec.
Qed.

(** A filter run again on its own output finds nothing more to remove:
    it emits no text and returns the list it was given. *)
Theorem filters_idempotent (command_list : list Command) :
  let kept := (remove_ignored_commands command_list).1.2 in
  let kept' := (remove_unrecognized_commands command_list).1.2 in
  remove_ignored_commands kept = ("", kept, [])
  ∧ remove_unrecognized_commands kept' = ("", kept', []).
Proof.
  simpl. rewrite !remove_ignored_commands_spec.
  rewrite !remove_unrecognized_commands_spec. simpl. split.
  - rewrite (filter_none (λ c, ignored c)), filter_all;
      [done | apply Forall_filter_holds..].
  - rewrite (filter_none (λ c, ¬ recognized c)), filter_all;
      [done | apply Forall_filter_holds |].
    eapply Forall_impl; [apply Forall_filter_holds|]. simpl. tauto.
Qed.

(** The order of the two filters does not matter: ignored first or
    unrecognized first, the two texts and the remaining list are the
    same. *)
Theorem filters_commute (command_list : list Command) :
  pipeline command_list = pipeline_unrec_first command_list.
Proof.
  unfold pipeline, pipeline_unrec_first.
  repeat (rewrite ?remove_ignored_commands_spec,
            ?remove_unrecognized_commands_spec; simpl).
  f_equal; [f_equal|].
  - rewrite (list_filter_filter_l (λ c, ignored c)); [done|].
    apply ignored_recognized.
  - rewrite (list_filter_filter_l (λ c, ¬ recognized c)); [done|].
    intros c Hc Hi. by apply Hc, ignored_recognized.
  - rewrite !list_filter_filter. apply list_filter_iff. tauto.
Qed.

(** What the two filters leave is exactly the commands of the input that
    are recognized and not classified as ignore. *)
Theorem pipeline_keeps_actionable (command_list : list Command) (c : Command) :
  c ∈ (pipeline command_list).2
  ↔ c ∈ command_list ∧ is_set c = true ∧ is_ignore c = false.
Proof.
  unfold pipeline.
  rewrite remove_ignored_commands_spec, remove_unrecognized_commands_spec.
  simpl. rewrite !list_elem_of_filter. unfold recognized, ignored.
  destruct (is_set c), (is_ignore c); simpl; intuition congruence.
Qed.

(** When every command is recognized and none is classified as ignore,
    the two filters emit no text and hand the list back as it was. *)
Theorem pipeline_noop (command_list : list Command) :
  Forall (λ c, is_set c = true ∧ is_ignore c = false) command_list →
  pipeline command_list = ("", "", command_list).
Proof.
  intros Hall. unfold pipeline.
  rewrite remove_ignored_commands_spec, remove_unrecognized_commands_spec.
  assert (Forall (λ c, ¬ ignored c) command_list) as Hi.
  { eapply Forall_impl; [exact Hall|]. intros c [Hs Hg]. unfold ignored.
    rewrite Hs, Hg. simpl. tauto. }
  assert (Forall (λ c, recognized c) command_list) as Hr.
  { eapply Forall_impl; [exact Hall|]. intros c [Hs _]. unfold recognized.
    by rewrite Hs. }
  rewrite (filter_none (λ c, ignored c)) by done.
  rewrite (filter_all (λ c, ¬ ignored c)) by done.
  rewrite (filter_all (λ c, recognized c)) by done.
  rewrite (filter_none (λ c, ¬ recognized c)); [done|].
  eapply Forall_impl; [exact Hr|]. simpl. tauto.
Qed.

Lemma pipeline_noop_witness :
  Forall (λ c, is_set c = true ∧ is_ignore c = false) [Demo.cmd_apt]
  ∧ pipeline [Demo.cmd_apt] = ("", "", [Demo.cmd_apt]).
Proof.
  assert (Forall (λ c, is_set c = true ∧ is_ignore c = false) [Demo.cmd_apt])
    as H by (repeat constructor).
  split; [exact H | exact (pipeline_noop [Demo.cmd_apt] H)].
Defined.

(** Dropping the unrecognized commands loses no installed package: the
    packages [get_installed_packages] finds in the commands that remain
    are those it finds in all of them. *)
Theorem unrecognized_install_nothing (command_list : list Command) :
  concat ((λ c, (Metadata.get_installed_packages c).1)
            <$> (remove_unrecognized_commands command_list).1.2)
  = concat ((λ c, (Metadata.get_installed_packages c).1) <$> command_list).
Proof.
  rewrite remove_unrecognized_commands_spec. simpl.
  induction command_list as [|c cl IH]; [done|].
  destruct (is_set c) eqn:Hs.
  - rewrite filter_cons_True by (unfold recognized; by rewrite Hs).
    rewrite !fmap_cons. simpl concat. by rewrite IH.
  - rewrite filter_cons_False by (unfold recognized; rewrite Hs; simpl; tauto).
    rewrite IH, fmap_cons. simpl concat.
    replace (Metadata.get_installed_packages c).1 with (@nil Package); [done|].
    unfold Metadata.get_installed_packages. by rewrite Hs.
Qed.

End FilterMore.

(** * Further properties of the package metadata filler *)

Section MetadataMore.
Context {Listing : Type} (E : Externals Listing).
Import Metadata.

(** Every way through [fill_package_metadata]: the version lookup and
    its invocation, then the license lookup and its invocation, which
    the source-URL step repeats. *)
Ltac fill_cases pkg_obj pkg_listing shell :=
  unfold fill_package_metadata;
  destruct (check_library_key E pkg_listing "version") as [[?vl|] ?vmsg];
  [destruct (get_pkg_attr_list E shell vl (Some (pkg_name pkg_obj)))
     as [[|?v ?vs] ?vimsg] |];
  cbn [pkg_name set_version pkg_add_notice];
  (destruct (check_library_key E pkg_listing "license") as [[?ll|] ?lmsg];
   [destruct (get_pkg_attr_list E shell ll (Some (pkg_name pkg_obj)))
      as [[|?u ?us] ?uimsg] eqn:?Hu |]);
  cbn [pkg_name set_version set_license pkg_add_notice];
  try match goal with
    | H : get_pkg_attr_list E _ _ _ = _ |- _ => rewrite !H
    end;
  cbn.

(** [fill_package_metadata] leaves the name and the dependencies of the
    package alone and only appends to its notices: at most three, each
    from the snippets origin and at level error or warning. *)
Theorem fill_package_metadata_frame (pkg_obj : Package) (pkg_listing : Listing)
        (shell : string) :
  let pkg' := fill_package_metadata E pkg_obj pkg_listing shell in
  pkg_name pkg' = pkg_name pkg_obj
  ∧ pkg_deps pkg' = pkg_deps pkg_obj
  ∧ ∃ added,
      pkg_notices pkg' = pkg_notices pkg_obj ++ added
      ∧ length added ≤ 3
      ∧ Forall (λ n, origin n = snippets_origin
                     ∧ (level n = "error" ∨ level n = "warning")) added.
Proof.
  fill_cases pkg_obj pkg_listing shell.
  all: split; [done|]; split; [done|]; eexists.
  all: split;
    [first [ exact (eq_sym (app_nil_r _))
           | rewrite <- ?app_assoc; reflexivity ] |].
  all: simpl; split; [lia|].
  all: repeat (apply Forall_cons; split;
               [split; [done | (by left) || (by right)] |]).
  all: done.
Qed.

(** A license that cannot be resolved is reported twice: the source-URL
    step repeats the license lookup, so the call ends with two equal
    notices, and neither the license nor the source URL is touched. *)
Theorem license_failure_reported_twice (pkg_obj : Package)
        (pkg_listing : Listing) (shell : string) :
  match (check_library_key E pkg_listing "license").1 with
  | Some license_listing =>
      (get_pkg_attr_list E shell license_listing (Some (pkg_name pkg_obj))).1
  | None => []
  end = [] →
  let pkg' := fill_package_metadata E pkg_obj pkg_listing shell in
  (∃ before n, pkg_notices pkg' = before ++ [n; n])
  ∧ pkg_license pkg' = pkg_license pkg_obj
  ∧ pkg_src_url pkg' = pkg_src_url pkg_obj.
Proof.
  fill_cases pkg_obj pkg_listing shell; intros Hnone.
  all: try match goal with
         | H : get_pkg_attr_list E _ _ _ = _ |- _ => rewrite H in Hnone
         end.
  all: try discriminate.
  all: split; [|done].
  all: match goal with
       | |- ∃ before n, (?l ++ [?a]) ++ [?a] = _ =>
           exists l, a; by rewrite <- app_assoc
       end.
Qed.

(** When the version and the license listings both invoke to values,
    the package gets the first version, and the first license value as
    its license and as its source URL; no notice is added. *)
Theorem fill_all_found (pkg_obj : Package) (pkg_listing : Listing)
        (shell : string) (vl ll : Listing) (vmsg lmsg vimsg limsg : string)
        (v l : string) (vs ls : list string) :
  check_library_key E pkg_listing "version" = (Some vl, vmsg) →
  get_pkg_attr_list E shell vl (Some (pkg_name pkg_obj)) = (v :: vs, vimsg) →
  check_library_key E pkg_listing "license" = (Some ll, lmsg) →
  get_pkg_attr_list E shell ll (Some (pkg_name pkg_obj)) = (l :: ls, limsg) →
  fill_package_metadata E pkg_obj pkg_listing shell =
    mkPackage (pkg_name pkg_obj) (Some v) (Some l) (Some l)
              (pkg_deps pkg_obj) (pkg_notices pkg_obj).
Proof.
  intros Hv Hvi Hl Hli. unfold fill_package_metadata.
  rewrite Hv, Hvi, Hl. cbn. rewrite Hli. cbn. by rewrite Hli.
Qed.

(** The version step: with a version listing that invokes to values the
    version is the first of them; otherwise the version is left as it
    was and the first notice the call appends is the invocation error,
    or the warning with the lookup's message. *)
Theorem version_step (pkg_obj : Package) (pkg_listing : Listing)
        (shell : string) :
  let pkg' := fill_package_metadata E pkg_obj pkg_listing shell in
  match check_library_key E pkg_listing "version" with
  | (Some version_listing, _) =>
      match get_pkg_attr_list E shell version_listing
                              (Some (pkg_name pkg_obj)) with
      | (v :: _, _) => pkg_version pkg' = Some v
      | ([], invoke_msg) =>
          pkg_version pkg' = pkg_version pkg_obj
          ∧ pkg_notices pkg' !! length (pkg_notices pkg_obj) =
              Some (mkNotice snippets_origin invoke_msg "error")
      end
  | (None, listing_msg) =>
      pkg_version pkg' = pkg_version pkg_obj
      ∧ pkg_notices pkg' !! length (pkg_notices pkg_obj) =
          Some (mkNotice snippets_origin listing_msg "warning")
  end.
Proof.
  fill_cases pkg_obj pkg_listing shell; try done.
  all: split; [done|].
  all: rewrite <- ?app_assoc; simpl; by apply list_lookup_middle.
Qed.

(** The message of [get_package_dependencies]: names come with an empty
    message; no name comes with the message of the step that failed,
    the invocation's when there is a listing under the deps key and the
    lookup's when there is none. *)
Theorem dependencies_message (package_listing : Listing)
        (package_name shell : string) :
  let result := get_package_dependencies E package_listing package_name shell in
  match check_library_key E package_listing "deps" with
  | (Some deps_listing, _) =>
      match get_pkg_attr_list E shell deps_listing (Some package_name) with
      | (_ :: _, _) => result.1 ≠ [] ∧ result.2 = ""
      | ([], invoke_msg) => result = ([], invoke_msg)
      end
  | (None, deps_msg) => result = ([], deps_msg)
  end.
Proof.
  unfold get_package_dependencies.
  destruct (check_library_key E package_listing "deps") as [[dl|] msg];
    [|done].
  destruct (get_pkg_attr_list E shell dl (Some package_name))
    as [[|d raw] imsg]; [done|].
  simpl. split; [|done]. intros Hnil.
  match type of Hnil with ?X = [] => assert (d ∈ X) as Hd end.
  { apply elem_of_elements, elem_of_union. left. by apply elem_of_singleton. }
  rewrite Hnil in Hd. exact (not_elem_of_nil _ Hd).
Qed.

End MetadataMore.

Lemma license_failure_reported_twice_witness :
  let E := Demo.env (Some "/bin/bash") true [] Demo.no_cache in
  let pkg' :=
    Metadata.fill_package_metadata E (new_package "git") "git" "/bin/bash" in
  (∃ before n, pkg_notices pkg' = before ++ [n; n])
  ∧ pkg_license pkg' = None
  ∧ pkg_src_url pkg' = None.
Proof.
  intros E.
  exact (license_failure_reported_twice E (new_package "git") "git"
           "/bin/bash" eq_refl).
Defined.

Lemma fill_all_found_witness :
  Metadata.fill_package_metadata
    (Demo.env (Some "/bin/bash") true Demo.aligned Demo.no_cache)
    (new_package "git") "git" "/bin/bash"
  = mkPackage "git" (Some "1.0") (Some "MIT") (Some "MIT") [] [].
Proof.
  exact (fill_all_found
           (Demo.env (Some "/bin/bash") true Demo.aligned Demo.no_cache)
           (new_package "git") "git" "/bin/bash" "version" "license"
           "" "" "" "" "1.0" "MIT" [] ["BSD"]
           eq_refl eq_refl eq_refl eq_refl).
Defined.

(** * Further properties of the layer cache bridge *)

Section CacheMore.
Context {Listing : Type} (E : Externals Listing).
Import Cache.

Lemma load_layer_id (image : Image) (layer : Layer) :
  layer_id (load_layer E image layer true).1.1 = layer_id layer.
Proof. apply load_layer_sourced. Qed.

(** [load_from_cache] touches nothing but the layers' packages and
    notices: the image keeps its name, tag, option string and notices,
    and its layers their number, order and ids. *)
Theorem load_from_cache_frame (image : Image) :
  let image' := (load_from_cache E image).1.1 in
  image_name image' = image_name image
  ∧ image_tag image' = image_tag image
  ∧ image_option image' = image_option image
  ∧ image_notices image' = image_notices image
  ∧ layer_id <$> layers image' = layer_id <$> layers image.
Proof.
  rewrite load_from_cache_spec. simpl. split_and!; try done.
  rewrite <- list_fmap_compose. apply list_fmap_ext.
  intros i l _. apply load_layer_id.
Qed.

(** A cache hit: a layer without packages whose id the cache knows with
    at least one mapping holds, after the call, one package per mapping,
    in the cache's order, each with the attributes of its mapping, and
    one more notice, at level info, whose origin is the image's option
    string followed by the layer id. *)
Theorem cache_hit_fills_layer (image : Image) (i : nat) (layer : Layer)
        (raw : list PkgDict) :
  layers image !! i = Some layer →
  packages layer = [] →
  cache_get_packages E (layer_id layer) = Some raw →
  raw ≠ [] →
  layers (load_from_cache E image).1.1 !! i =
    Some (mkLayer (layer_id layer)
            ((λ d, mkPackage (d_name d) (d_version d) (d_license d)
                             (d_src_url d) (d_deps d) []) <$> raw)
            (layer_notices layer ++
               [mkNotice (image_option image +:+ layer_id layer)
                         (loading_from_cache E (layer_id layer)) "info"])).
Proof.
  intros Hi Hp Hc Hr. rewrite load_from_cache_spec. simpl.
  rewrite list_lookup_fmap, Hi. simpl.
  rewrite (load_layer_hit E image layer true raw); [done| |done|].
  - unfold has_packages. by rewrite Hp.
  - by destruct raw.
Qed.

(** A cache miss: a layer without packages whose id the cache does not
    know, or knows with no mapping, is left as it was, and the call
    answers that the image is not full. *)
Theorem cache_miss_clears_is_full (image : Image) (i : nat) (layer : Layer) :
  layers image !! i = Some layer →
  packages layer = [] →
  Py.opt_list_truthy (cache_get_packages E (layer_id layer)) = false →
  layers (load_from_cache E image).1.1 !! i = Some layer
  ∧ (load_from_cache E image).1.2 = false.
Proof.
  intros Hi Hp Hc. rewrite load_from_cache_spec. simpl.
  assert (has_packages layer = false) as Hh.
  { unfold has_packages. by rewrite Hp. }
  split.
  - rewrite list_lookup_fmap, Hi. simpl. by rewrite load_layer_miss.
  - apply not_true_is_false. intros Hall.
    rewrite forallb_forall in Hall.
    specialize (Hall layer). rewrite load_layer_miss in Hall by done.
    simpl in Hall. apply list_elem_of_lookup_2, list_elem_of_In in Hi.
    by specialize (Hall Hi).
Qed.

Lemma load_layer_again (image image' : Image) (layer : Layer) :
  load_layer E image' (load_layer E image layer true).1.1 true =
    ((load_layer E image layer true).1.1,
     (load_layer E image layer true).1.2,
     if has_packages (load_layer E image layer true).1.1
     then [] else [CacheGet (layer_id layer)]).
Proof.
  destruct (load_layer_cases E image layer) as [H|[[H1 H2]|[H1 (raw&H2&H3)]]].
  - rewrite (load_layer_skip E image) by done. simpl.
    rewrite H. by apply load_layer_skip.
  - rewrite (load_layer_miss E image) by done. simpl.
    rewrite H1. by apply load_layer_miss.
  - rewrite (load_layer_hit E image _ _ raw) by done. simpl.
    assert (has_packages
              (mkLayer (layer_id layer) (cached_package <$> raw)
                 (layer_notices layer ++
                    [mkNotice (image_option image +:+ layer_id layer)
                       (loading_from_cache E (layer_id layer)) "info"]))
            = true) as Hfull.
    { unfold has_packages. simpl. by destruct raw. }
    rewrite Hfull. by apply load_layer_skip.
Qed.

Lemma load_layers_again (image image' : Image) (ls : list Layer) :
  let ls' := (λ l, (load_layer E image l true).1.1) <$> ls in
  (λ l, (load_layer E image' l true).1.1) <$> ls' = ls'
  ∧ forallb (λ l, (load_layer E image' l true).1.2) ls' =
      forallb (λ l, (load_layer E image l true).1.2) ls
  ∧ concat ((λ l, (load_layer E image' l true).2) <$> ls') =
      CacheGet ∘ layer_id <$> filter (λ l, ¬ has_packages l) ls'.
Proof.
  induction ls as [|l ls (IH1 & IH2 & IH3)]; [done|].
  cbv zeta in *. rewrite !fmap_cons. cbn [forallb concat].
  rewrite !(load_layer_again image image' l). cbn [fst snd].
  split_and!.
  - by f_equal.
  - by f_equal.
  - rewrite IH3.
    destruct (has_packages (load_layer E image l true).1.1) eqn:Hl.
    + rewrite filter_cons_False; [done|]. rewrite Hl. simpl. tauto.
    + rewrite filter_cons_True by (rewrite Hl; simpl; tauto).
      simpl. by rewrite load_layer_id.
Qed.

(** A second call right after the first, against the same cache, changes
    nothing: the image comes back as the first call left it, with the
    same answer, no package is constructed, and the cache is asked again
    only for the layers the first call could not fill. *)
Theorem load_from_cache_again (image : Image) :
  let first := load_from_cache E image in
  load_from_cache E first.1.1 =
    (first.1.1, first.1.2,
     CacheGet ∘ layer_id
       <$> filter (λ l, ¬ has_packages l) (layers first.1.1)).
Proof.
  simpl. rewrite (load_from_cache_spec E image). simpl.
  rewrite load_from_cache_spec. simpl.
  destruct (load_layers_again image (with_layers image
              ((λ l, (load_layer E image l true).1.1) <$> layers image))
              (layers image)) as (H1 & H2 & H3).
  rewrite H1, H2, H3. by unfold with_layers.
Qed.

End CacheMore.

Lemma cache_hit_fills_layer_witness :
  layers (Cache.load_from_cache
            (Demo.env None true [] Demo.cache_of_l2) Demo.debian3).1.1 !! 1
  = Some (mkLayer "l2"
            [mkPackage "zlib" (Some "1.2") (Some "Zlib") None [] []]
            [mkNotice "debian:jessiel2" "loading from cache: l2" "info"]).
Proof.
  exact (cache_hit_fills_layer (Demo.env None true [] Demo.cache_of_l2)
           Demo.debian3 1 Demo.layer2
           [mkPkgDict "zlib" (Some "1.2") (Some "Zlib") None []]
           eq_refl eq_refl eq_refl ltac:(discriminate)).
Defined.

Lemma cache_miss_clears_is_full_witness :
  layers (Cache.load_from_cache
            (Demo.env None true [] Demo.cache_of_l2) Demo.debian3).1.1 !! 2
  = Some Demo.layer3
  ∧ (Cache.load_from_cache
       (Demo.env None true [] Demo.cache_of_l2) Demo.debian3).1.2 = false.
Proof.
  exact (cache_miss_clears_is_full (Demo.env None true [] Demo.cache_of_l2)
           Demo.debian3 2 Demo.layer3 eq_refl eq_refl eq_refl).
Defined.

(** * Further properties of the base package loader *)

Section BaseMore.
Context {Listing : Type} (E : Externals Listing).
Import Base.

Lemma loop_packages_imap (names versions licenses src_urls : list string) :
  omap (loop_package names versions licenses src_urls) (seq 0 (length names)) =
    imap (λ i name, mkPackage name (attr_at names versions i)
                              (attr_at names licenses i)
                              (attr_at names src_urls i) [] []) names.
Proof.
  rewrite <- (length_imap
                (λ i name, mkPackage name (attr_at names versions i)
                                     (attr_at names licenses i)
                                     (attr_at names src_urls i) [] []) names)
    at 1.
  apply omap_seq_lookup. intros i _. simpl.
  rewrite list_lookup_imap. unfold loop_package.
  by destruct (names !! i).
Qed.

Lemma attr_at_aligned (names xs : list string) :
  length xs = length names →
  imap (λ i _, attr_at names xs i) names = Some <$> xs.
Proof.
  intros Hlen. apply list_eq. intros i.
  rewrite list_lookup_imap, list_lookup_fmap. unfold attr_at.
  rewrite Hlen, Nat.eqb_refl.
  destruct (names !! i) eqn:Hn; simpl.
  - apply lookup_lt_Some in Hn. rewrite <- Hlen in Hn.
    by destruct (lookup_lt_is_Some_2 xs i Hn) as [x ->].
  - apply lookup_ge_None in Hn. rewrite <- Hlen in Hn.
    by rewrite (lookup_ge_None_2 xs i Hn).
Qed.

Lemma attr_at_misaligned (names xs : list string) :
  length xs ≠ length names →
  imap (λ i _, attr_at names xs i) names = (λ _, None) <$> names.
Proof.
  intros Hlen. rewrite <- imap_const. apply imap_ext. intros i x _.
  unfold attr_at. apply Nat.eqb_neq in Hlen. by rewrite Hlen.
Qed.

Lemma after_invoke_notices (image : Image) (listing : Listing)
      (invoke_msg : string) :
  image_notices
    (if Py.str_truthy invoke_msg
     then image_add_notice (after_shell E image listing)
                           (mkNotice base_origin invoke_msg "error")
     else after_shell E image listing)
  = image_notices image
      ++ (if Py.opt_str_truthy (get_image_shell E listing).1
          then [] else no_shell_notices E image)
      ++ (if Py.str_truthy invoke_msg
          then [mkNotice base_origin invoke_msg "error"] else []).
Proof.
  unfold after_shell.
  destruct (Py.str_truthy invoke_msg),
    (Py.opt_str_truthy (get_image_shell E listing).1); simpl;
    rewrite ?app_nil_r, <- ?app_assoc; done.
Qed.

(** Without a base listing the call attaches one error notice to the
    image and does nothing else: no invocation result is used, the
    layers are not touched, nothing is logged or written to the cache. *)
Theorem no_listing_one_notice (image : Image) (info : Info Listing) :
  get_base_listing E (image_name image) (image_tag image) = None →
  add_base_packages E image info =
    Some (mkImage (image_name image) (image_tag image) (image_option image)
            (layers image)
            (image_notices image ++
               [mkNotice base_origin
                  (no_image_tag_listing E (image_name image) (image_tag image))
                  "error"]),
          []).
Proof. intros Hl. unfold add_base_packages. by rewrite Hl. Qed.

(** With a listing and a running container, the image gains at most
    three notices, in this order: the warning and the hint when the
    listing names no shell, then one error notice whose message is the
    four invocation messages joined, names first, when that is not
    empty.  Name, tag and option string stay. *)
Theorem running_notices (image : Image) (info : Info Listing)
        (listing : Listing) :
  get_base_listing E (image_name image) (image_tag image) = Some listing →
  check_container E = true →
  let invoke_msg :=
    (((invoked E listing (info_names info)).2
      +:+ (invoked E listing (info_versions info)).2)
     +:+ (invoked E listing (info_licenses info)).2)
    +:+ (invoked E listing (info_src_urls info)).2 in
  ∃ image' trace,
    add_base_packages E image info = Some (image', trace)
    ∧ image_notices image' =
        image_notices image
          ++ (if Py.opt_str_truthy (get_image_shell E listing).1
              then [] else no_shell_notices E image)
          ++ (if Py.str_truthy invoke_msg
              then [mkNotice base_origin invoke_msg "error"] else [])
    ∧ image_name image' = image_name image
    ∧ image_tag image' = image_tag image
    ∧ image_option image' = image_option image.
Proof.
  intros Hl Hc invoke_msg.
  eexists _, _. split; [by apply add_base_packages_running|].
  fold invoke_msg. split; [apply after_invoke_notices|].
  unfold after_shell.
  by destruct (Py.str_truthy invoke_msg),
    (Py.opt_str_truthy (get_image_shell E listing).1).
Qed.

(** With more than one name and as many source URLs, every layer gains
    one package per name, in order, named after it and carrying the
    source URL at its index.  The version is the one at its index when
    there are as many versions as names, and is left unset on every
    package otherwise; the license likewise. *)
Theorem attached_packages_attributes (image : Image) (info : Info Listing)
        (listing : Listing) :
  get_base_listing E (image_name image) (image_tag image) = Some listing →
  check_container E = true →
  let names := (invoked E listing (info_names info)).1 in
  let versions := (invoked E listing (info_versions info)).1 in
  let licenses := (invoked E listing (info_licenses info)).1 in
  let src_urls := (invoked E listing (info_src_urls info)).1 in
  1 < length names →
  length src_urls = length names →
  ∃ image' trace pkgs,
    add_base_packages E image info = Some (image', trace)
    ∧ layers image' = (λ layer, add_packages layer pkgs) <$> layers image
    ∧ pkg_name <$> pkgs = names
    ∧ pkg_src_url <$> pkgs = Some <$> src_urls
    ∧ pkg_version <$> pkgs =
        (if length versions =? length names
         then Some <$> versions else (λ _, None) <$> names)
    ∧ pkg_license <$> pkgs =
        (if length licenses =? length names
         then Some <$> licenses else (λ _, None) <$> names)
    ∧ Forall (λ p, pkg_deps p = [] ∧ pkg_notices p = []) pkgs.
Proof.
  intros Hl Hc names versions licenses src_urls Hn Hu.
  eexists _, _, _. split; [by apply add_base_packages_running|].
  fold names versions licenses src_urls. simpl.
  assert (Py.list_truthy names = true) as ->.
  { apply list_truthy_length. lia. }
  assert ((1 <? length names) = true) as -> by (apply Nat.ltb_lt; lia).
  rewrite Hu, Nat.eqb_refl. simpl. split; [reflexivity|].
  rewrite loop_packages_imap, !fmap_imap. simpl.
  split_and!.
  - rewrite <- (list_fmap_id names) at 2. by rewrite <- imap_const.
  - by apply (attr_at_aligned names src_urls).
  - destruct (Nat.eqb_spec (length versions) (length names)).
    + by apply (attr_at_aligned names versions).
    + by apply (attr_at_misaligned names versions).
  - destruct (Nat.eqb_spec (length licenses) (length names)).
    + by apply (attr_at_aligned names licenses).
    + by apply (attr_at_misaligned names licenses).
  - apply Forall_forall. intros p Hp.
    apply elem_of_lookup_imap in Hp as (i & name & -> & _). done.
Qed.

(** With more than one name, one package is constructed per name, in
    order, whether or not the source URLs line up: when they do not,
    the packages are built and dropped. *)
Theorem packages_built_for_every_name (image : Image) (info : Info Listing)
        (listing : Listing) :
  get_base_listing E (image_name image) (image_tag image) = Some listing →
  check_container E = true →
  1 < length (invoked E listing (info_names info)).1 →
  ∃ image' trace,
    add_base_packages E image info = Some (image', trace)
    ∧ List.filter is_new_package trace =
        NewPackage <$> (invoked E listing (info_names info)).1.
Proof.
  intros Hl Hc Hn.
  eexists _, _. split; [by apply add_base_packages_running|]. simpl.
  assert (Py.list_truthy (invoked E listing (info_names info)).1 = true)
    as ->.
  { apply list_truthy_length. lia. }
  assert ((1 <? length (invoked E listing (info_names info)).1) = true)
    as -> by (apply Nat.ltb_lt; lia).
  simpl. rewrite List.filter_app, filter_new_package_cache_add, app_nil_r.
  generalize (invoked E listing (info_names info)).1.
  intros l. induction l as [|n l IH]; [done|]. simpl. by f_equal.
Qed.

(** [add_base_packages] never raises on a subscript, whatever the
    lengths of the four invoked lists, and whatever it does it keeps the
    image's name, tag, option string and layers' ids and notices: every
    layer gains the same, possibly empty, list of packages after the
    ones it held, and the image's notices only grow. *)
Theorem add_base_packages_frame (image : Image) (info : Info Listing) :
  ∃ image' trace pkgs added,
    add_base_packages E image info = Some (image', trace)
    ∧ layers image' = (λ layer, add_packages layer pkgs) <$> layers image
    ∧ image_notices image' = image_notices image ++ added
    ∧ image_name image' = image_name image
    ∧ image_tag image' = image_tag image
    ∧ image_option image' = image_option image.
Proof.
  assert (∀ ls : list Layer, ls = (λ layer, add_packages layer []) <$> ls)
    as Hnil.
  { intros ls. rewrite <- (list_fmap_id ls) at 1. apply list_fmap_ext.
    intros ???. by rewrite add_packages_nil. }
  destruct (get_base_listing E (image_name image) (image_tag image))
    as [listing|] eqn:Hl.
  - destruct (check_container E) eqn:Hc.
    + pose proof (add_base_packages_running E image info listing Hl Hc)
        as Hrun.
      cbv zeta in Hrun. rewrite Hrun. clear Hrun.
      destruct (_ && _ && _).
      * eexists _, _, _, _. split; [reflexivity|]. split; [reflexivity|].
        split; [apply after_invoke_notices|].
        unfold after_shell. by destruct (Py.str_truthy _), (negb _).
      * eexists _, _, [], _. split; [reflexivity|]. split; [apply Hnil|].
        split; [apply after_invoke_notices|].
        unfold after_shell. by destruct (Py.str_truthy _), (negb _).
    + rewrite (add_base_packages_stopped E image info listing Hl Hc).
      eexists _, _, [], _. split; [reflexivity|].
      split; [rewrite after_shell_layers; apply Hnil|].
      split; [apply after_shell_notices|].
      unfold after_shell. by destruct (negb _).
  - unfold add_base_packages. rewrite Hl.
    eexists _, _, [], _. split; [reflexivity|]. split; [apply Hnil|]. done.
Qed.

End BaseMore.

Lemma no_listing_one_notice_witness :
  Base.add_base_packages
    (Demo.env (Some "/bin/bash") true Demo.aligned Demo.no_cache)
    (mkImage "alpine" "3.6" "alpine:3.6" [Demo.layer2] []) Demo.info
  = Some (mkImage "alpine" "3.6" "alpine:3.6" [Demo.layer2]
            [mkNotice "command_lib/base.yml" "no listing for alpine" "error"],
          []).
Proof.
  exact (no_listing_one_notice
           (Demo.env (Some "/bin/bash") true Demo.aligned Demo.no_cache)
           (mkImage "alpine" "3.6" "alpine:3.6" [Demo.layer2] []) Demo.info
           eq_refl).
Defined.

Lemma running_notices_witness :
  let E := Demo.env None true [("names", ["a"; "b"])] Demo.no_cache in
  ∃ image' trace,
    Base.add_base_packages E Demo.debian Demo.info = Some (image', trace)
    ∧ image_notices image' =
        [mkNotice "command_lib/base.yml" "no shell listed for debian" "warning";
         mkNotice "command_lib/base.yml" "add the key shell" "hint";
         mkNotice "command_lib/base.yml"
           ("no recipe for versions" +:+ "no recipe for licenses"
              +:+ "no recipe for src_urls") "error"].
Proof.
  intros E.
  destruct (running_notices E Demo.debian Demo.info "debian" eq_refl eq_refl)
    as (image' & trace & Hrun & Hnotices & _).
  exists image', trace. split; [exact Hrun | exact Hnotices].
Defined.

Lemma attached_packages_attributes_witness :
  let E := Demo.env (Some "/bin/bash") true
             [("names", ["a"; "b"]); ("versions", ["1.0"]);
              ("licenses", ["MIT"; "MIT"]); ("src_urls", ["u1"; "u2"])]
             Demo.no_cache in
  ∃ image' trace pkgs,
    Base.add_base_packages E Demo.debian Demo.info = Some (image', trace)
    ∧ layers image' =
        (λ layer, Base.add_packages layer pkgs) <$> layers Demo.debian
    ∧ pkg_name <$> pkgs = ["a"; "b"]
    ∧ pkg_src_url <$> pkgs = [Some "u1"; Some "u2"]
    ∧ pkg_version <$> pkgs = [None; None]
    ∧ pkg_license <$> pkgs = [Some "MIT"; Some "MIT"].
Proof.
  intros E.
  destruct (attached_packages_attributes E Demo.debian Demo.info "debian"
              eq_refl eq_refl ltac:(vm_compute; lia) eq_refl)
    as (image' & trace & pkgs & Hrun & Hl & Hn & Hu & Hv & Hli & _).
  exists image', trace, pkgs. by split_and!.
Defined.

Lemma packages_built_for_every_name_witness :
  let E := Demo.env (Some "/bin/bash") true
             [("names", ["a"; "b"]); ("src_urls", ["u1"])] Demo.no_cache in
  ∃ image' trace,
    Base.add_base_packages E Demo.debian Demo.info = Some (image', trace)
    ∧ List.filter is_new_package trace = [NewPackage "a"; NewPackage "b"].
Proof.
  intros E.
  exact (packages_built_for_every_name E Demo.debian Demo.info "debian"
           eq_refl eq_refl ltac:(vm_compute; lia)).
Defined.
